(** * CryptoTrackerBackend: the four HTTP handlers of the Express server

    A shallow embedding of the server (routes [/api/coins], [/api/history],
    [/api/history/:coinId], [/api/health]) and of the Mongoose model
    [models/History.js], followed by the properties the specification states
    about them.

    The handlers are asynchronous JavaScript functions that talk to two
    collaborators: CoinGecko through [axios.get], and MongoDB through the
    [History] model.  A handler is embedded as a computation over a [World]
    that holds what those collaborators will answer, what the clock will
    read and what the collection contains; a thrown exception carries its
    [message] and leaves the world as it was at the throw, as in
    JavaScript. *)

From Stdlib Require Import List String Ascii ZArith QArith Bool Lia.
From Stdlib Require Import Sorting.Sorted Sorting.Permutation.
From Stdlib Require DecimalString DecimalNat.
Import ListNotations.

Local Open Scope string_scope.
Local Open Scope Z_scope.
Local Open Scope list_scope.

(** ** JSON values sent with [res.json] *)

(** Two kinds of leaves are kept symbolic: a [Date], which [JSON.stringify]
    and [toISOString] both print as the ISO-8601 text of its instant, and a
    MongoDB [ObjectId], printed as its 24 hexadecimal digits.  [JNum] holds a
    JavaScript number; the handlers never compute with prices, they only
    pass them on. *)
#[local] Set Warnings "-register-all".
Inductive Json : Type :=
| JNull
| JBool (b : bool)
| JNum (q : Q)
| JStr (s : string)
| JDate (ms : Z)
| JObjectId (n : nat)
| JArr (items : list Json)
| JObj (props : list (string * Json)).

Definition JInt (n : nat) : Json := JNum (inject_Z (Z.of_nat n)).

(** Property names of an object, in order. *)
Definition keys (j : Json) : list string :=
  match j with
  | JObj props => map fst props
  | _ => []
  end.

Fixpoint assoc (k : string) (props : list (string * Json)) : option Json :=
  match props with
  | [] => None
  | (k', v) :: rest => if String.eqb k k' then Some v else assoc k rest
  end.

(** [j.k]: [None] stands for [undefined]. *)
Definition prop (k : string) (j : Json) : option Json :=
  match j with
  | JObj props => assoc k props
  | _ => None
  end.

Definition elements (j : Json) : list Json :=
  match j with
  | JArr items => items
  | _ => []
  end.

(** A JavaScript value that may be [undefined]: [None]. *)
Definition JsValue : Type := option Json.

(** An object literal as [res.json] prints it: [JSON.stringify] leaves out
    a property whose value is [undefined]. *)
Fixpoint stringify (props : list (string * JsValue)) : list (string * Json) :=
  match props with
  | [] => []
  | (k, Some v) :: rest => (k, v) :: stringify rest
  | (_, None) :: rest => stringify rest
  end.

Record Response : Type := mkResponse {
  status : Z;
  body : Json
}.

(** ** Data model *)

(** What an upstream record has under one key: nothing (reading the
    property gives [undefined]), [null], or a value. *)
Inductive Field (A : Type) : Type :=
| Absent
| Null
| Present (a : A).
Arguments Absent {A}.
Arguments Null {A}.
Arguments Present {A} a.

(** One element of the array CoinGecko's [/coins/markets] answers.  The
    seven keys the handlers read hold values of the types the provider
    documents, when they are there and not [null]; everything else the
    provider sends ([image], [market_cap_rank], [ath], ...) is in [others]. *)
Record Coin : Type := mkCoin {
  id : Field string;
  name : Field string;
  symbol : Field string;
  current_price : Field Q;
  market_cap : Field Q;
  price_change_percentage_24h : Field Q;
  last_updated : Field string;
  others : list (string * Json)
}.

(** [coin.key] as a JavaScript value. *)
Definition readString (f : Field string) : JsValue :=
  match f with
  | Absent => None
  | Null => Some JNull
  | Present s => Some (JStr s)
  end.

Definition readNumber (f : Field Q) : JsValue :=
  match f with
  | Absent => None
  | Null => Some JNull
  | Present q => Some (JNum q)
  end.

(** ** The [History] model (models/History.js) *)

Module History.

(** A document of the collection, with the [_id] and [__v] Mongoose
    adds to every document. *)
Record Doc : Type := mkDoc {
  _id : nat;
  coinId : string;
  name : string;
  symbol : string;
  price : Q;
  marketCap : Q;
  change24h : Q;
  timestamp : Z;
  __v : Z
}.

(** The object literal handed to [History.create]: each property holds
    what was read upstream, [undefined] and [null] included; the
    [timestamp] is a [Date] or is left out. *)
Record Input : Type := mkInput {
  in_coinId : Field string;
  in_name : Field string;
  in_symbol : Field string;
  in_price : Field Q;
  in_marketCap : Field Q;
  in_change24h : Field Q;
  in_timestamp : option Z
}.

(** A document returned by a query with [.select("price timestamp
    change24h")]: the three selected paths and [_id], which a projection
    keeps unless it is excluded by name. *)
Record Selected : Type := mkSelected {
  s_id : nat;
  s_price : Q;
  s_change24h : Q;
  s_timestamp : Z
}.

Definition emptyString (s : string) : bool :=
  match s with EmptyString => true | _ => false end.

(** The [required] validator of a [Number] path fails on [undefined] and
    [null]. *)
Definition missing {A} (f : Field A) : bool :=
  match f with Present _ => false | Absent | Null => true end.

(** That of a [String] path also fails on the empty string. *)
Definition missingString (f : Field string) : bool :=
  match f with Present s => emptyString s | Absent | Null => true end.

(** The paths whose [required: true] validator fails, in schema order.
    [timestamp] is not required. *)
Definition requiredFailures (input : Input) : list string :=
  (if missingString (in_coinId input) then ["coinId"] else []) ++
  (if missingString (in_name input) then ["name"] else []) ++
  (if missingString (in_symbol input) then ["symbol"] else []) ++
  (if missing (in_price input) then ["price"] else []) ++
  (if missing (in_marketCap input) then ["marketCap"] else []) ++
  (if missing (in_change24h input) then ["change24h"] else []).

(** The message of Mongoose's [ValidationError]. *)
Definition validationMessage (paths : list string) : string :=
  ("History validation failed: " ++
   String.concat ", "
     (map (fun p => p ++ ": Path `" ++ p ++ "` is required.") paths))%string.

(** Validation before the save, of an input whose [timestamp] is
    settled: the message of the error, or the document to insert once it
    has its [_id]. *)
Definition validate (timestamp : Z) (input : Input) : string + (nat -> Doc) :=
  match requiredFailures input,
        in_coinId input, in_name input, in_symbol input,
        in_price input, in_marketCap input, in_change24h input with
  | [], Present i, Present n, Present s, Present p, Present m, Present c =>
      inr (fun oid => mkDoc oid i n s p m c timestamp 0)
  | paths, _, _, _, _, _, _ => inl (validationMessage paths)
  end.

(** [{ coinId }] as a filter. *)
Definition matches (coinId' : string) (d : Doc) : bool :=
  String.eqb (coinId d) coinId'.

(** [.sort({ timestamp: -1 })]: newest first.  MongoDB does not say in
    which order documents of equal timestamp come; here they keep the
    order they had. *)
Fixpoint insertNewestFirst (d : Doc) (sorted : list Doc) : list Doc :=
  match sorted with
  | [] => [d]
  | e :: rest =>
      if timestamp e <=? timestamp d then d :: sorted
      else e :: insertNewestFirst d rest
  end.

Fixpoint sortNewestFirst (l : list Doc) : list Doc :=
  match l with
  | [] => []
  | d :: rest => insertNewestFirst d (sortNewestFirst rest)
  end.

(** [.limit(n)]: MongoDB takes 0 as no limit, and a negative number as
    the limit of its absolute value. *)
Definition limitTo {A} (n : Z) (l : list A) : list A :=
  if n =? 0 then l else firstn (Z.to_nat (Z.abs n)) l.

(** [.select("price timestamp change24h")] *)
Definition select (d : Doc) : Selected :=
  mkSelected (_id d) (price d) (change24h d) (timestamp d).

(** What [res.json] prints of a selected document; the properties come
    in the order MongoDB stores them. *)
Definition toJSON (s : Selected) : Json :=
  JObj [ ("_id", JObjectId (s_id s));
         ("price", JNum (s_price s));
         ("change24h", JNum (s_change24h s));
         ("timestamp", JDate (s_timestamp s)) ].

End History.

(** [mongoose.connection.readyState] and the numbers Mongoose gives the
    states. *)
Inductive ConnectionState : Type :=
| disconnected | connected | connecting | disconnecting | uninitialized.

Definition readyStateCode (s : ConnectionState) : Z :=
  match s with
  | disconnected => 0
  | connected => 1
  | connecting => 2
  | disconnecting => 3
  | uninitialized => 99
  end.

(** What a limit that is not a finite number ([parseInt] answered [NaN]
    or [Infinity]) becomes once Mongoose and the driver have handled it.
    This differs between their versions and none is pinned in the
    repository, so the world says which: the query is refused with a
    message, or runs with some limit. *)
Inductive NaNLimit : Type :=
| NaNRefused (message : string)
| NaNTreatedAs (n : Z).

(** ** The world a request runs in *)
Record World : Type := mkWorld {
  (** what [axios.get(COINGECKO_URL)] does: rejects with an error of this
      message, or resolves with [response.data] *)
  upstream : string + list Coin;
  (** the instant the next reading of the clock ([new Date()],
      [Date.now()]) gives *)
  clock : Z;
  (** by how much each reading after that is later than the one before;
      past the end of the list the clock stands still *)
  ticks : list Z;
  readyState : ConnectionState;
  (** the [History] collection, in insertion order *)
  docs : list History.Doc;
  (** source of the next [_id] *)
  nextId : nat;
  (** outcome of the coming round trips to MongoDB, first one first:
      [Some m] is a round trip that fails with message [m]; past the end of
      the list every round trip goes through *)
  roundTrips : list (option string);
  nanLimit : NaNLimit
}.

(** ** Computations that may throw *)

Inductive Outcome (A : Type) : Type :=
| Returned (a : A)
| Threw (message : string).
Arguments Returned {A} a.
Arguments Threw {A} message.

Definition M (A : Type) : Type := World -> Outcome A * World.

Definition ret {A} (a : A) : M A := fun w => (Returned a, w).

Definition throw {A} (message : string) : M A := fun w => (Threw message, w).

Definition bind {A B} (c : M A) (k : A -> M B) : M B :=
  fun w =>
    match c w with
    | (Returned a, w') => k a w'
    | (Threw m, w') => (Threw m, w')
    end.

Notation "x <- c ;; k" := (bind c (fun x => k))
  (at level 61, c at next level, right associativity).

(** A route handler: it answers the request and leaves a world behind. *)
Definition Handler : Type := World -> Response * World.

(** [try { body } catch (error) { res.status(..).json(onError(error.message)) }]:
    the three asynchronous handlers all have this shape, and their [catch]
    block does nothing but respond. *)
Definition tryCatch (body : M Response) (onError : string -> Response) : Handler :=
  fun w =>
    match body w with
    | (Returned r, w') => (r, w')
    | (Threw m, w') => (onError m, w')
    end.

(** ** [parseInt] *)

(** [parseInt(string)] with no radix: leading white space is skipped, one
    sign is read, a [0x] or [0X] prefix selects base 16, and the longest
    run of digits of the base is read; with no digit there the answer is
    [NaN].  The integer read becomes a JavaScript number, the nearest
    double, which is [Infinity] from 2^1024 - 2^970 on.  The answer is
    [None] when it is not a finite number.

    A [string] holds the UTF-8 bytes of the JavaScript string.  White
    space is what ECMAScript's [StrWhiteSpaceChar] is: tab, line feed,
    vertical tab, form feed, carriage return, space, U+00A0, U+1680,
    U+2000 to U+200A, U+2028, U+2029, U+202F, U+205F, U+3000 and U+FEFF. *)
Definition isWhiteSpace (c : ascii) : bool :=
  let n := nat_of_ascii c in
  ((9 <=? n) && (n <=? 13) || (n =? 32))%nat.

(** U+00A0 is the bytes C2 A0. *)
Definition isWhiteSpace2 (c1 c2 : ascii) : bool :=
  ((nat_of_ascii c1 =? 194) && (nat_of_ascii c2 =? 160))%nat.

(** The white space of three bytes. *)
Definition isWhiteSpace3 (c1 c2 c3 : ascii) : bool :=
  let b1 := nat_of_ascii c1 in
  let b2 := nat_of_ascii c2 in
  let b3 := nat_of_ascii c3 in
  ((b1 =? 225) && (b2 =? 154) && (b3 =? 128)
   || (b1 =? 226) && (b2 =? 128)
      && ((128 <=? b3) && (b3 <=? 138) || (b3 =? 168) || (b3 =? 169) || (b3 =? 175))
   || (b1 =? 226) && (b2 =? 129) && (b3 =? 159)
   || (b1 =? 227) && (b2 =? 128) && (b3 =? 128)
   || (b1 =? 239) && (b2 =? 187) && (b3 =? 191))%nat.

Fixpoint skipWhiteSpace (s : string) : string :=
  match s with
  | EmptyString => s
  | String c1 r1 =>
      if isWhiteSpace c1 then skipWhiteSpace r1
      else
        match r1 with
        | EmptyString => s
        | String c2 r2 =>
            if isWhiteSpace2 c1 c2 then skipWhiteSpace r2
            else
              match r2 with
              | EmptyString => s
              | String c3 r3 =>
                  if isWhiteSpace3 c1 c2 c3 then skipWhiteSpace r3 else s
              end
        end
  end.

Definition digitValue (c : ascii) : option Z :=
  let n := Z.of_nat (nat_of_ascii c) in
  if (48 <=? n) && (n <=? 57) then Some (n - 48)
  else if (97 <=? n) && (n <=? 122) then Some (n - 97 + 10)
  else if (65 <=? n) && (n <=? 90) then Some (n - 65 + 10)
  else None.

(** Reads digits of base [radix] from the front of [s]; [acc] is the value
    read so far, [None] while no digit has been read. *)
Fixpoint readDigits (radix : Z) (s : string) (acc : option Z) : option Z :=
  match s with
  | EmptyString => acc
  | String c rest =>
      match digitValue c with
      | Some d =>
          if d <? radix
          then readDigits radix rest
                 (Some (match acc with Some a => a * radix + d | None => d end))
          else acc
      | None => acc
      end
  end.

(** The double nearest to a natural number [n], ties going to the even
    significand of 53 bits; [None] when that is [Infinity]. *)
Definition toNumber (n : Z) : option Z :=
  if Z.log2 n <? 53 then Some n
  else
    let e := Z.log2 n - 52 in
    let q := n / 2 ^ e in
    let r := n mod 2 ^ e in
    let half := 2 ^ (e - 1) in
    let q' := if (half <? r) || ((r =? half) && Z.odd q) then q + 1 else q in
    if q' * 2 ^ e <? 2 ^ 1024 then Some (q' * 2 ^ e) else None.

Definition parseInt (input : string) : option Z :=
  let s := skipWhiteSpace input in
  let '(sign, s) :=
    match s with
    | String "-" rest => (-1, rest)
    | String "+" rest => (1, rest)
    | _ => (1, s)
    end in
  let '(radix, s) :=
    match s with
    | String "0" (String "x" rest) => (16, rest)
    | String "0" (String "X" rest) => (16, rest)
    | _ => (10, s)
    end in
  match readDigits radix s None with
  | Some n =>
      match toNumber n with
      | Some v => Some (sign * v)
      | None => None
      end
  | None => None
  end.

(** [const { limit = 24 } = req.query; ... parseInt(limit)]: the query
    parameter is a string when present, and the default is the number 24,
    which [parseInt] reads back as 24. *)
Definition parsedLimit (limit : option string) : option Z :=
  match limit with
  | Some s => parseInt s
  | None => Some 24
  end.

(** The world after one reading of the clock. *)
Definition tick (w : World) : World :=
  mkWorld (upstream w) (clock w + hd 0 (ticks w)) (tl (ticks w))
          (readyState w) (docs w) (nextId w) (roundTrips w) (nanLimit w).

(** One reading of the clock: [new Date()], [Date.now()]. *)
Definition newDate : M Z := fun w => (Returned (clock w), tick w).

(** ** Mongoose calls on the model *)

(** One round trip to MongoDB: it goes through or fails as the world
    says. *)
Definition roundTrip : M unit :=
  fun w =>
    match roundTrips w with
    | [] => (Returned tt, w)
    | outcome :: rest =>
        let w' := mkWorld (upstream w) (clock w) (ticks w) (readyState w)
                          (docs w) (nextId w) rest (nanLimit w) in
        match outcome with
        | Some m => (Threw m, w')
        | None => (Returned tt, w')
        end
    end.

Definition insertOne (mk : nat -> History.Doc) : M History.Doc :=
  fun w =>
    let doc := mk (nextId w) in
    (Returned doc,
     mkWorld (upstream w) (clock w) (ticks w) (readyState w)
             (docs w ++ [doc]) (S (nextId w)) (roundTrips w) (nanLimit w)).

(** The [timestamp] of the document built from [input]: the one given,
    or, when none is, what the schema's [default: Date.now] reads. *)
Definition timestampOrDefault (input : History.Input) : M Z :=
  match History.in_timestamp input with
  | Some t => ret t
  | None => newDate
  end.

(** [await History.create(input)] *)
Definition History_create (input : History.Input) : M History.Doc :=
  timestamp <- timestampOrDefault input ;;
  match History.validate timestamp input with
  | inl message => throw message
  | inr mk => _ <- roundTrip ;; insertOne mk
  end.

(** The limit the query runs with: [None] is [NaN]. *)
Definition resolveLimit (limit : option Z) : M Z :=
  fun w =>
    match limit with
    | Some n => (Returned n, w)
    | None =>
        match nanLimit w with
        | NaNRefused message => (Threw message, w)
        | NaNTreatedAs n => (Returned n, w)
        end
    end.

(** [await History.find({ coinId }).sort({ timestamp: -1 }).limit(limit)
    .select("price timestamp change24h")] *)
Definition History_find_sort_limit_select (coinId : string)
    (limit : option Z) : M (list History.Selected) :=
  n <- resolveLimit limit ;;
  _ <- roundTrip ;;
  fun w =>
    (Returned
       (map History.select
          (History.limitTo n
             (History.sortNewestFirst
                (filter (History.matches coinId) (docs w))))),
     w).

(** ** The handlers *)

Definition COINGECKO_URL : string :=
  "https://api.coingecko.com/api/v3/coins/markets?vs_currency=usd&order=market_cap_desc&per_page=10&page=1".

(** [(await axios.get(url)).data]; the world has one provider, whatever the
    address. *)
Definition axios_get (url : string) : M (list Coin) :=
  fun w =>
    match upstream w with
    | inl message => (Threw message, w)
    | inr data => (Returned data, w)
    end.

(** *** 1. GET /api/coins *)

Definition formatCoin (coin : Coin) : Json :=
  JObj (stringify
    [ ("id", readString (id coin));
      ("name", readString (name coin));
      ("symbol", readString (symbol coin));
      ("current_price", readNumber (current_price coin));
      ("market_cap", readNumber (market_cap coin));
      ("price_change_percentage_24h",
       readNumber (price_change_percentage_24h coin));
      ("last_updated", readString (last_updated coin)) ]).

Definition getCoins : Handler :=
  tryCatch
    (coins <- axios_get COINGECKO_URL ;;
     let formattedCoins := map formatCoin coins in
     ret (mkResponse 200 (JArr formattedCoins)))
    (fun message =>
       mkResponse 500
         (JObj [ ("error", JStr "Failed to fetch coins data from CoinGecko");
                 ("details", JStr message) ])).

(** *** 2. POST /api/history *)

Definition historyInput (coin : Coin) (timestamp : Z) : History.Input :=
  History.mkInput (id coin) (name coin) (symbol coin)
                  (current_price coin) (market_cap coin)
                  (price_change_percentage_24h coin) (Some timestamp).

(** [for (const coin of coins) { savedRecords.push(await History.create(..)) }] *)
Fixpoint saveEach (timestamp : Z) (coins : list Coin)
    (savedRecords : list History.Doc) : M (list History.Doc) :=
  match coins with
  | [] => ret savedRecords
  | coin :: rest =>
      historyRecord <- History_create (historyInput coin timestamp) ;;
      saveEach timestamp rest (savedRecords ++ [historyRecord])
  end.

Definition postHistory : Handler :=
  tryCatch
    (coins <- axios_get COINGECKO_URL ;;
     timestamp <- newDate ;;
     savedRecords <- saveEach timestamp coins [] ;;
     ret (mkResponse 201
            (JObj [ ("success", JBool true);
                    ("message", JStr "Snapshot stored successfully");
                    ("recordsCount", JInt (List.length savedRecords));
                    ("timestamp", JDate timestamp) ])))
    (fun message =>
       mkResponse 500
         (JObj [ ("success", JBool false);
                 ("error", JStr "Failed to store history snapshot");
                 ("details", JStr message) ])).

(** *** 3. GET /api/history/:coinId *)

Definition getHistory (coinId : string) (limit : option string) : Handler :=
  tryCatch
    (history <- History_find_sort_limit_select coinId (parsedLimit limit) ;;
     if (List.length history =? 0)%nat then
       ret (mkResponse 404
              (JObj [ ("error", JStr "No historical data found");
                      ("message",
                       JStr ("No history found for " ++ coinId ++
                             ". Run POST /api/history first.")%string);
                      ("coinId", JStr coinId) ]))
     else
       let reversedHistory := rev history in
       ret (mkResponse 200
              (JObj [ ("coinId", JStr coinId);
                      ("recordsCount", JInt (List.length reversedHistory));
                      ("data", JArr (map History.toJSON reversedHistory)) ])))
    (fun message =>
       mkResponse 500
         (JObj [ ("error", JStr "Failed to fetch historical data");
                 ("details", JStr message) ])).

(** *** Health check *)

Definition health : Handler :=
  fun w =>
    (* [new Date().toISOString()] is the one reading of the clock *)
    (mkResponse 200
       (JObj [ ("status", JStr "OK");
               ("timestamp", JDate (clock w));
               ("database",
                JStr (if readyStateCode (readyState w) =? 1
                      then "Connected" else "Disconnected"));
               ("endpoints",
                JObj [ ("GET /api/coins", JStr "Fetch live data from CoinGecko");
                       ("POST /api/history", JStr "Store snapshot in database");
                       ("GET /api/history/:coinId",
                        JStr "Get historical data for chart") ]) ]),
     tick w).

(** ** Vocabulary of the properties *)

(** The stored records of a coin, in insertion order. *)
Definition stored (coinId : string) (w : World) : list History.Doc :=
  filter (History.matches coinId) (docs w).

(** [d] is the record [postHistory] writes for [coin] at [timestamp]. *)
Definition recordOf (timestamp : Z) (coin : Coin) (d : History.Doc) : Prop :=
  id coin = Present (History.coinId d) /\
  name coin = Present (History.name d) /\
  symbol coin = Present (History.symbol d) /\
  current_price coin = Present (History.price d) /\
  market_cap coin = Present (History.marketCap d) /\
  price_change_percentage_24h coin = Present (History.change24h d) /\
  History.timestamp d = timestamp.

(** [a] comes before [b] in a newest-first list. *)
Definition notOlder (a b : History.Doc) : Prop :=
  History.timestamp b <= History.timestamp a.

(** The instant a document gets and the world in which it is validated:
    the default reads the clock only when no [timestamp] is given. *)
Definition settledTimestamp (input : History.Input) (w : World) : Z :=
  match History.in_timestamp input with
  | Some t => t
  | None => clock w
  end.

Definition settledWorld (input : History.Input) (w : World) : World :=
  match History.in_timestamp input with
  | Some _ => w
  | None => tick w
  end.

(** The seven names of the public shape of a coin. *)
Definition publicFields : list string :=
  [ "id"; "name"; "symbol"; "current_price"; "market_cap";
    "price_change_percentage_24h"; "last_updated" ].

(** ** Sample data *)

Definition bitcoin : Coin :=
  mkCoin (Present "bitcoin") (Present "Bitcoin") (Present "btc")
         (Present (inject_Z 65000)) (Present (inject_Z 1280000000000))
         (Present (Qmake (-3) 2)) (Present "2024-05-01T10:00:00.000Z")
         [ ("image", JStr "https://assets.coingecko.com/coins/images/1/large/bitcoin.png");
           ("market_cap_rank", JNum (inject_Z 1)) ].

Definition ethereum : Coin :=
  mkCoin (Present "ethereum") (Present "Ethereum") (Present "eth")
         (Present (inject_Z 3100)) (Present (inject_Z 372000000000))
         (Present (Qmake 1 4)) (Present "2024-05-01T10:00:01.000Z") [].

(** A coin for which the provider has no 24-hour change yet. *)
Definition newcoin : Coin :=
  mkCoin (Present "newcoin") (Present "New Coin") (Present "new")
         (Present (Qmake 1 2)) (Present (inject_Z 1000000)) Null Null [].

(** A record with four keys only: no market cap, no 24-hour change, no
    date of update. *)
Definition barecoin : Coin :=
  mkCoin (Present "barecoin") (Present "Bare Coin") (Present "bare")
         (Present (inject_Z 2)) Absent Absent Absent [].

Definition btcAt (oid : nat) (timestamp : Z) (usd : Z) : History.Doc :=
  History.mkDoc oid "bitcoin" "Bitcoin" "btc" (inject_Z usd)
                (inject_Z 1280000000000) (Qmake (-3) 2) timestamp 0.

Definition ethAt (oid : nat) (timestamp : Z) (usd : Z) : History.Doc :=
  History.mkDoc oid "ethereum" "Ethereum" "eth" (inject_Z usd)
                (inject_Z 372000000000) (Qmake 1 4) timestamp 0.

(** A fresh deployment: the provider answers two coins, nothing is stored. *)
Definition freshWorld : World :=
  mkWorld (inr [bitcoin; ethereum]) 1714557600000 [250; 40; 75; 310] connected [] 0 []
          (NaNRefused "limit must be a number").

(** Three bitcoin snapshots and one of ethereum, not inserted in time
    order. *)
Definition seededWorld : World :=
  mkWorld (inr [bitcoin; ethereum]) 1714557600000 [250; 40; 75; 310] connected
          [ btcAt 0 2000 64000; ethAt 1 2000 3000;
            btcAt 2 1000 63000; btcAt 3 3000 65000 ]
          4 [] (NaNRefused "limit must be a number").

(** The provider is down. *)
Definition providerDownWorld : World :=
  mkWorld (inl "Request failed with status code 429") 1714557600000 [250; 40; 75; 310] connected
          [ btcAt 0 2000 64000 ] 1 [] (NaNRefused "limit must be a number").

(** MongoDB is unreachable: the next operation times out. *)
Definition outageWorld : World :=
  mkWorld (inr [bitcoin; ethereum]) 1714557600000 [250; 40; 75; 310] disconnected
          [ btcAt 0 2000 64000 ] 1
          [ Some "Operation `histories.find()` buffering timed out after 10000ms" ]
          (NaNRefused "limit must be a number").

(** The provider's second record has four keys only. *)
Definition bareWorld : World :=
  mkWorld (inr [bitcoin; barecoin]) 1714557600000 [250; 40; 75; 310] connected
          [] 0 [] (NaNRefused "limit must be a number").

(** The provider's second coin has no 24-hour change. *)
Definition partialWorld : World :=
  mkWorld (inr [bitcoin; newcoin; ethereum]) 1714557600000 [250; 40; 75; 310] connected [] 0 []
          (NaNRefused "limit must be a number").

(** A single-coin provider, as in the specification's example. *)
Definition bitcoinOnlyWorld : World :=
  mkWorld (inr [bitcoin]) 1714557600000 [250; 40; 75; 310] connected [] 0 []
          (NaNRefused "limit must be a number").

(** ** The route table *)

(** A request one of the four registered routes matches: [app.get] and
    [app.post] bind each to its handler. *)
Inductive Request : Type :=
| GET_coins
| POST_history
| GET_history (coinId : string) (limit : option string)
| GET_health.

Definition handle (req : Request) : Handler :=
  match req with
  | GET_coins => getCoins
  | POST_history => postHistory
  | GET_history coinId limit => getHistory coinId limit
  | GET_health => health
  end.

(** ** Start-up *)

(** The two variables read from [process.env]. *)
Record Env : Type := mkEnv {
  env_MONGODB_URI : option string;
  env_PORT : option string
}.

Definition doubleQuote : string := String (ascii_of_nat 34) EmptyString.

(** The message of the error Mongoose throws for a connection string that
    is [undefined]. *)
Definition openUriMessage : string :=
  ("The `uri` parameter to `openUri()` must be a string, got " ++
   doubleQuote ++ "undefined" ++ doubleQuote ++
   ". Make sure the first parameter to `mongoose.connect()` or " ++
   "`mongoose.createConnection()` is a string.")%string.

Definition setReadyState (s : ConnectionState) : M unit :=
  fun w =>
    (Returned tt,
     mkWorld (upstream w) (clock w) (ticks w) s (docs w) (nextId w)
             (roundTrips w) (nanLimit w)).

(** [await mongoose.connect(uri)]: refused at once without a connection
    string; otherwise one round trip, after which the connection is
    [connected]. *)
Definition mongoose_connect (uri : option string) : M unit :=
  match uri with
  | None => throw openUriMessage
  | Some _ => _ <- roundTrip ;; setReadyState connected
  end.

(** [connectDB]: the exit code when the [catch] block ran
    [process.exit(1)], or nothing when the connection is up. *)
Definition connectDB (env : Env) (w : World) : option Z * World :=
  match mongoose_connect (env_MONGODB_URI env) w with
  | (Returned _, w1) => (None, w1)
  | (Threw _, w1) => (Some 1, w1)
  end.

(** [process.env.PORT || 5000]: the variable as it is, a string, unless
    it is unset or empty. *)
Definition PORT (env : Env) : string + Z :=
  match env_PORT env with
  | Some s => if History.emptyString s then inr 5000 else inl s
  | None => inr 5000
  end.

(** How the script ends: the process has exited, or [app.listen(port)]
    was called. *)
Inductive Started : Type :=
| Exited (code : Z)
| Listening (port : string + Z) (w : World).

(** [connectDB().then(() => { app.listen(PORT, ...) })] *)
Definition start (env : Env) (w : World) : Started :=
  match connectDB env w with
  | (Some code, _) => Exited code
  | (None, w1) => Listening (PORT env) w1
  end.

(** ** More vocabulary *)

(** What the [required] validators of the three [String] paths demand of
    a stored document. *)
Definition satisfiesSchema (d : History.Doc) : Prop :=
  History.coinId d <> "" /\ History.name d <> "" /\ History.symbol d <> "".

(** The coin passes the [required] validators of [History]. *)
Definition validCoin (coin : Coin) : Prop :=
  History.requiredFailures (historyInput coin 0) = [].

(** The next [k] round trips to MongoDB all go through. *)
Definition goThrough (k : nat) (w : World) : Prop :=
  Forall (fun outcome => outcome = None) (firstn k (roundTrips w)).

(** A natural number in decimal digits. *)
Definition decimal (n : nat) : string :=
  DecimalString.NilZero.string_of_uint (Nat.to_uint n).

(** ** More sample data *)

(** The records of [seededWorld], inserted in another order. *)
Definition shuffledWorld : World :=
  mkWorld (inr [bitcoin; ethereum]) 1714557600000 [250; 40; 75; 310] connected
          [ btcAt 3 3000 65000; btcAt 2 1000 63000;
            ethAt 1 2000 3000; btcAt 0 2000 64000 ]
          4 [] (NaNRefused "limit must be a number").

(** A world before start-up: nothing connected yet. *)
Definition coldWorld : World :=
  mkWorld (inr [bitcoin; ethereum]) 1714557600000 [250; 40; 75; 310] disconnected [] 0 []
          (NaNRefused "limit must be a number").

Definition localEnv : Env :=
  mkEnv (Some "mongodb://localhost:27017/crypto") None.

(** ** The handlers on the sample data *)

Example parseInt_samples :
  map parseInt ["24"; "  12abc"; "-5"; "+7"; "0x1f"; "0"; "-0"; "12.5"; "1e3"] =
  map Some [24; 12; -5; 7; 31; 0; 0; 12; 1] /\
  map parseInt [""; "abc"; "0x"; "-"; " "] = [None; None; None; None; None].
Proof. split; reflexivity. Qed.

Example parsedLimit_default : parsedLimit None = Some 24.
Proof. reflexivity. Qed.

(** POST /api/history, then GET /api/history/bitcoin?limit=1. *)
Example post_then_get :
  fst (postHistory bitcoinOnlyWorld) =
    mkResponse 201
      (JObj [ ("success", JBool true);
              ("message", JStr "Snapshot stored successfully");
              ("recordsCount", JInt 1);
              ("timestamp", JDate 1714557600000) ]) /\
  fst (getHistory "bitcoin" (Some "1") (snd (postHistory bitcoinOnlyWorld))) =
    mkResponse 200
      (JObj [ ("coinId", JStr "bitcoin");
              ("recordsCount", JInt 1);
              ("data",
               JArr [ JObj [ ("_id", JObjectId 0);
                             ("price", JNum (inject_Z 65000));
                             ("change24h", JNum (Qmake (-3) 2));
                             ("timestamp", JDate 1714557600000) ] ]) ]).
Proof. split; reflexivity. Qed.

Example get_unknown_coin :
  fst (getHistory "doesnotexist" None seededWorld) =
    mkResponse 404
      (JObj [ ("error", JStr "No historical data found");
              ("message",
               JStr "No history found for doesnotexist. Run POST /api/history first.");
              ("coinId", JStr "doesnotexist") ]).
Proof. reflexivity. Qed.

(** Newest three of the seeded bitcoin records are all three; the two
    newest, oldest first, are those of instants 2000 and 3000. *)
Example get_two_newest :
  map (prop "timestamp")
      (elements
         match prop "data" (body (fst (getHistory "bitcoin" (Some "2") seededWorld))) with
         | Some data => data
         | None => JNull
         end) =
  [Some (JDate 2000); Some (JDate 3000)].
Proof. reflexivity. Qed.

Example health_disconnected :
  prop "database" (body (fst (health outageWorld))) = Some (JStr "Disconnected") /\
  status (fst (health outageWorld)) = 200.
Proof. split; reflexivity. Qed.

Example getCoins_provider_down :
  fst (getCoins providerDownWorld) =
    mkResponse 500
      (JObj [ ("error", JStr "Failed to fetch coins data from CoinGecko");
              ("details", JStr "Request failed with status code 429") ]).
Proof. reflexivity. Qed.

(** ** Lists: sorting, limiting, reversing *)

Section NewestFirst.

Import History.

Lemma insertNewestFirst_perm (d : Doc) (l : list Doc) :
  Permutation (insertNewestFirst d l) (d :: l).
Proof.
  induction l as [|e l IH]; simpl.
  - apply Permutation_refl.
  - destruct (timestamp e <=? timestamp d).
    + apply Permutation_refl.
    + eapply perm_trans; [apply perm_skip, IH | apply perm_swap].
Qed.

Lemma sortNewestFirst_perm (l : list Doc) :
  Permutation (sortNewestFirst l) l.
Proof.
  induction l as [|d l IH]; simpl.
  - constructor.
  - eapply perm_trans; [apply insertNewestFirst_perm | now apply perm_skip].
Qed.

Lemma sortNewestFirst_length (l : list Doc) :
  List.length (sortNewestFirst l) = List.length l.
Proof. apply Permutation_length, sortNewestFirst_perm. Qed.

Lemma insertNewestFirst_sorted (d : Doc) (l : list Doc) :
  StronglySorted notOlder l -> StronglySorted notOlder (insertNewestFirst d l).
Proof.
  induction 1 as [|e l Hl IH He]; simpl.
  - repeat constructor.
  - destruct (timestamp e <=? timestamp d) eqn:E.
    + apply Z.leb_le in E. constructor.
      * now constructor.
      * constructor; [exact E|].
        eapply Forall_impl; [|exact He].
        intros x Hx. unfold notOlder in *. lia.
    + apply Z.leb_gt in E. constructor; [exact IH|].
      eapply Permutation_Forall.
      * apply Permutation_sym, insertNewestFirst_perm.
      * constructor; [unfold notOlder; lia | exact He].
Qed.

Lemma sortNewestFirst_sorted (l : list Doc) :
  StronglySorted notOlder (sortNewestFirst l).
Proof.
  induction l as [|d l IH]; simpl.
  - constructor.
  - now apply insertNewestFirst_sorted.
Qed.

End NewestFirst.

Lemma in_firstn {A} (n : nat) (l : list A) (x : A) :
  In x (firstn n l) -> In x l.
Proof.
  revert l. induction n as [|n IH]; intros [|a l]; simpl; try tauto.
  intros [H|H]; [now left | right; now apply IH].
Qed.

Section SortedLists.

Context {A : Type} (R : A -> A -> Prop).

Lemma StronglySorted_firstn (n : nat) (l : list A) :
  StronglySorted R l -> StronglySorted R (firstn n l).
Proof.
  intros H. revert n.
  induction H as [|a l Hl IH Ha]; intros [|n]; simpl; try constructor.
  - apply IH.
  - rewrite Forall_forall in *. intros x Hx.
    apply Ha. eapply in_firstn. exact Hx.
Qed.

Lemma StronglySorted_snoc (l : list A) (a : A) :
  StronglySorted R l -> Forall (fun x => R x a) l ->
  StronglySorted R (l ++ [a]).
Proof.
  induction 1 as [|b l Hl IH Hb]; intros Hall; simpl.
  - repeat constructor.
  - inversion Hall; subst. constructor.
    + now apply IH.
    + apply Forall_app. split; [exact Hb | now repeat constructor].
Qed.

End SortedLists.

Lemma StronglySorted_rev {A} (R : A -> A -> Prop) (l : list A) :
  StronglySorted R l -> StronglySorted (fun x y => R y x) (rev l).
Proof.
  induction 1 as [|a l Hl IH Ha]; simpl.
  - constructor.
  - apply StronglySorted_snoc; [exact IH | now apply Forall_rev].
Qed.

Lemma StronglySorted_map {A B} (R : B -> B -> Prop) (f : A -> B) (l : list A) :
  StronglySorted (fun x y => R (f x) (f y)) l -> StronglySorted R (map f l).
Proof.
  induction 1 as [|a l Hl IH Ha]; simpl; constructor.
  - exact IH.
  - rewrite Forall_forall in *. intros y Hy.
    apply in_map_iff in Hy. destruct Hy as [x [<- Hx]]. now apply Ha.
Qed.

Lemma filter_perm {A} (f : A -> bool) (l l' : list A) :
  Permutation l l' -> Permutation (filter f l) (filter f l').
Proof.
  induction 1 as [|x l l' _ IH|x y l|l l' l'' _ IH1 _ IH2]; simpl.
  - constructor.
  - destruct (f x); [now apply perm_skip | exact IH].
  - destruct (f x), (f y); try apply Permutation_refl. apply perm_swap.
  - eapply perm_trans; eassumption.
Qed.

(** Two orderings of the same instants that are both oldest first are the
    same list. *)
Lemma sorted_perm_unique (l l' : list Z) :
  StronglySorted Z.le l -> StronglySorted Z.le l' -> Permutation l l' -> l = l'.
Proof.
  intros H. revert l'. induction H as [|a l Hl IH Ha]; intros l' H' P.
  - symmetry. now apply Permutation_nil.
  - destruct l' as [|b l'].
    + apply Permutation_sym, Permutation_nil in P. discriminate.
    + inversion H' as [|? ? Hl' Hb]; subst.
      assert (a = b) as ->.
      { assert (Ia : In a (b :: l')).
        { eapply Permutation_in; [exact P | now left]. }
        assert (Ib : In b (a :: l)).
        { eapply Permutation_in; [apply Permutation_sym; exact P | now left]. }
        rewrite Forall_forall in Ha, Hb.
        destruct Ia as [->|Ia]; [reflexivity|].
        destruct Ib as [->|Ib]; [reflexivity|].
        apply Hb in Ia. apply Ha in Ib. lia. }
      f_equal. apply IH; [exact Hl'|]. eapply Permutation_cons_inv. exact P.
Qed.

Lemma limitTo_sorted {A} (R : A -> A -> Prop) (n : Z) (l : list A) :
  StronglySorted R l -> StronglySorted R (History.limitTo n l).
Proof.
  intros H. unfold History.limitTo. destruct (n =? 0); [exact H|].
  now apply StronglySorted_firstn.
Qed.

Lemma limitTo_zero {A} (l : list A) : History.limitTo 0 l = l.
Proof. reflexivity. Qed.

Lemma limitTo_length_le {A} (n : Z) (l : list A) :
  n <> 0 -> Z.of_nat (List.length (History.limitTo n l)) <= Z.abs n.
Proof.
  intros Hn. unfold History.limitTo.
  destruct (n =? 0) eqn:E; [apply Z.eqb_eq in E; contradiction|].
  pose proof (firstn_le_length (Z.to_nat (Z.abs n)) l). lia.
Qed.

Lemma limitTo_all {A} (n : Z) (l : list A) :
  Z.of_nat (List.length l) <= n -> History.limitTo n l = l.
Proof.
  intros H. unfold History.limitTo. destruct (n =? 0); [reflexivity|].
  apply firstn_all2. lia.
Qed.

Lemma limitTo_nil {A} (n : Z) : History.limitTo n (@nil A) = [].
Proof. unfold History.limitTo. destruct (n =? 0); [reflexivity | apply firstn_nil]. Qed.

(** ** The Mongoose calls *)

Lemma bind_returned {A B} (c : M A) (k : A -> M B) (w w1 : World) (a : A) :
  c w = (Returned a, w1) -> bind c k w = k a w1.
Proof. unfold bind. now intros ->. Qed.

Lemma bind_threw {A B} (c : M A) (k : A -> M B) (w w1 : World) (m : string) :
  c w = (Threw m, w1) -> bind c k w = (Threw m, w1).
Proof. unfold bind. now intros ->. Qed.

(** Splits the outcome of the first computation of a [bind]. *)
Ltac step c w :=
  let o := fresh "o" in
  let w1 := fresh "w" in
  let E := fresh "E" in
  destruct (c w) as [o w1] eqn:E;
  destruct o;
  [ rewrite (bind_returned _ _ _ _ _ E) in *
  | rewrite (bind_threw _ _ _ _ _ E) in * ].

Lemma roundTrip_docs (w w1 : World) (o : Outcome unit) :
  roundTrip w = (o, w1) -> docs w1 = docs w /\ nextId w1 = nextId w.
Proof.
  unfold roundTrip. destruct (roundTrips w) as [|[m|] rest]; intros H;
    inversion H; subst; simpl; auto.
Qed.

Lemma validate_inr (timestamp : Z) (input : History.Input)
    (mk : nat -> History.Doc) :
  History.validate timestamp input = inr mk ->
  forall oid,
    History._id (mk oid) = oid /\
    History.in_coinId input = Present (History.coinId (mk oid)) /\
    History.in_name input = Present (History.name (mk oid)) /\
    History.in_symbol input = Present (History.symbol (mk oid)) /\
    History.in_price input = Present (History.price (mk oid)) /\
    History.in_marketCap input = Present (History.marketCap (mk oid)) /\
    History.in_change24h input = Present (History.change24h (mk oid)) /\
    History.timestamp (mk oid) = timestamp.
Proof.
  unfold History.validate.
  destruct (History.requiredFailures input); [|discriminate].
  destruct (History.in_coinId input), (History.in_name input),
    (History.in_symbol input), (History.in_price input),
    (History.in_marketCap input), (History.in_change24h input);
    try discriminate.
  intros H oid. inversion H; subst; simpl. repeat split; reflexivity.
Qed.

Lemma create_unfold (input : History.Input) (w : World) :
  History_create input w =
  match History.validate (settledTimestamp input w) input with
  | inl message => (Threw message, settledWorld input w)
  | inr mk => bind roundTrip (fun _ => insertOne mk) (settledWorld input w)
  end.
Proof.
  unfold History_create, bind at 1, timestampOrDefault,
    settledTimestamp, settledWorld.
  destruct (History.in_timestamp input) as [t|]; unfold ret, newDate;
    [destruct (History.validate t input)
    |destruct (History.validate (clock w) input)]; reflexivity.
Qed.

Lemma settledWorld_frame (input : History.Input) (w : World) :
  docs (settledWorld input w) = docs w /\
  nextId (settledWorld input w) = nextId w /\
  roundTrips (settledWorld input w) = roundTrips w.
Proof.
  unfold settledWorld. destruct (History.in_timestamp input); auto.
Qed.

Lemma create_returned (input : History.Input) (w w1 : World) (d : History.Doc) :
  History_create input w = (Returned d, w1) ->
  docs w1 = docs w ++ [d] /\
  exists mk,
    History.validate (settledTimestamp input w) input = inr mk /\
    d = mk (nextId w).
Proof.
  rewrite create_unfold.
  destruct (settledWorld_frame input w) as [Fd [Fn _]].
  destruct (History.validate (settledTimestamp input w) input) as [m|mk] eqn:V.
  - discriminate.
  - intros H. step roundTrip (settledWorld input w); [|discriminate].
    apply roundTrip_docs in E. destruct E as [Ed En].
    unfold insertOne in H. inversion H; subst; simpl.
    rewrite Ed, En, Fd, Fn. split; [reflexivity|]. now exists mk.
Qed.

(** A write that fails stores nothing. *)
Lemma create_threw (input : History.Input) (w w1 : World) (m : string) :
  History_create input w = (Threw m, w1) -> docs w1 = docs w.
Proof.
  rewrite create_unfold.
  destruct (settledWorld_frame input w) as [Fd _].
  destruct (History.validate (settledTimestamp input w) input) as [m'|mk].
  - inversion 1; subst. exact Fd.
  - intros H. step roundTrip (settledWorld input w).
    + unfold insertOne in H. discriminate.
    + inversion H; subst. apply roundTrip_docs in E. destruct E as [E _].
      now rewrite E.
Qed.

Lemma create_recordOf (coin : Coin) (timestamp : Z) (w w1 : World) (d : History.Doc) :
  History_create (historyInput coin timestamp) w = (Returned d, w1) ->
  recordOf timestamp coin d.
Proof.
  intros H. apply create_returned in H. destruct H as [_ [mk [V ->]]].
  pose proof (validate_inr _ _ _ V (nextId w)) as F. simpl in F.
  unfold recordOf. tauto.
Qed.

Lemma roundTrip_clock (w w1 : World) (o : Outcome unit) :
  roundTrip w = (o, w1) -> clock w1 = clock w /\ ticks w1 = ticks w.
Proof.
  unfold roundTrip. destruct (roundTrips w) as [|[m|] rest]; intros H;
    inversion H; subst; simpl; auto.
Qed.

(** A write whose [timestamp] is given does not read the clock. *)
Lemma create_clock (input : History.Input) (t : Z) (w w1 : World)
    (o : Outcome History.Doc) :
  History.in_timestamp input = Some t ->
  History_create input w = (o, w1) ->
  clock w1 = clock w /\ ticks w1 = ticks w.
Proof.
  intros T. rewrite create_unfold. unfold settledWorld, settledTimestamp.
  rewrite T.
  destruct (History.validate t input) as [m|mk].
  - now inversion 1.
  - intros H. step roundTrip w.
    + apply roundTrip_clock in E. unfold insertOne in H.
      inversion H; subst; simpl. exact E.
    + inversion H; subst. now apply roundTrip_clock in E.
Qed.

(** ** The write loop of [postHistory] *)

(** The loop never reads the clock: every record gets the timestamp it is
    handed. *)
Lemma saveEach_clock (timestamp : Z) (coins : list Coin) :
  forall (acc : list History.Doc) (w w1 : World)
         (o : Outcome (list History.Doc)),
    saveEach timestamp coins acc w = (o, w1) ->
    clock w1 = clock w /\ ticks w1 = ticks w.
Proof.
  induction coins as [|coin rest IH]; intros acc w w1 o H; simpl in H.
  - inversion H; subst. auto.
  - destruct (History_create (historyInput coin timestamp) w)
      as [[d|m] w0] eqn:E.
    + rewrite (bind_returned _ _ _ _ _ E) in H.
      apply (create_clock _ timestamp) in E; [|reflexivity].
      apply IH in H. destruct E as [E1 E2], H as [H1 H2].
      split; congruence.
    + rewrite (bind_threw _ _ _ _ _ E) in H. inversion H; subst.
      now apply (create_clock _ timestamp) in E.
Qed.

Lemma saveEach_app (timestamp : Z) (pre rest : list Coin)
    (acc : list History.Doc) (w : World) :
  saveEach timestamp (pre ++ rest) acc w =
  bind (saveEach timestamp pre acc) (saveEach timestamp rest) w.
Proof.
  revert acc w. induction pre as [|coin pre IH]; intros acc w; simpl.
  - reflexivity.
  - unfold bind in *.
    destruct (History_create (historyInput coin timestamp) w) as [[a|m] w1].
    + apply IH.
    + reflexivity.
Qed.

(** When the loop completes, it has stored one record per coin, in order,
    after what the collection held, and pushed them on [savedRecords]. *)
Lemma saveEach_returned (timestamp : Z) (coins : list Coin) :
  forall (acc : list History.Doc) (w w1 : World) (saved : list History.Doc),
    saveEach timestamp coins acc w = (Returned saved, w1) ->
    exists new,
      saved = acc ++ new /\
      docs w1 = docs w ++ new /\
      Forall2 (recordOf timestamp) coins new.
Proof.
  induction coins as [|coin rest IH]; intros acc w w1 saved H; simpl in H.
  - inversion H; subst. exists []. rewrite !app_nil_r. auto.
  - step (History_create (historyInput coin timestamp)) w; [|discriminate].
    apply IH in H. destruct H as [new [-> [Hd Hf]]].
    pose proof (create_recordOf _ _ _ _ _ E) as Hr.
    apply create_returned in E. destruct E as [Ed _].
    exists (a :: new). rewrite Hd, Ed, <- !app_assoc. simpl.
    repeat split; auto.
Qed.

(** When a write fails, the loop stops there: the records of the coins
    before it are in the collection, and nothing else was added. *)
Lemma saveEach_threw (timestamp : Z) (coins : list Coin) :
  forall (acc : list History.Doc) (w w1 : World) (m : string),
    saveEach timestamp coins acc w = (Threw m, w1) ->
    exists pre coin post new,
      coins = pre ++ coin :: post /\
      docs w1 = docs w ++ new /\
      Forall2 (recordOf timestamp) pre new.
Proof.
  induction coins as [|coin rest IH]; intros acc w w1 m H; simpl in H.
  - discriminate.
  - step (History_create (historyInput coin timestamp)) w.
    + apply IH in H. destruct H as [pre [c [post [new [-> [Hd Hf]]]]]].
      pose proof (create_recordOf _ _ _ _ _ E) as Hr.
      apply create_returned in E. destruct E as [Ed _].
      exists (coin :: pre), c, post, (a :: new).
      rewrite Hd, Ed, <- app_assoc. simpl. auto.
    + inversion H; subst. apply create_threw in E.
      exists [], coin, rest, []. rewrite app_nil_r. simpl. auto.
Qed.

(** ** GET /api/coins *)

(** What [res.json] prints of an object literal of the seven public
    properties: each property that is not [undefined], in the order of the
    literal, with its value. *)
Lemma public_shape (v1 v2 v3 v4 v5 v6 v7 : JsValue) :
  let item :=
    JObj (stringify
      [ ("id", v1); ("name", v2); ("symbol", v3); ("current_price", v4);
        ("market_cap", v5); ("price_change_percentage_24h", v6);
        ("last_updated", v7) ]) in
  prop "id" item = v1 /\
  prop "name" item = v2 /\
  prop "symbol" item = v3 /\
  prop "current_price" item = v4 /\
  prop "market_cap" item = v5 /\
  prop "price_change_percentage_24h" item = v6 /\
  prop "last_updated" item = v7 /\
  keys item =
    filter (fun k => match prop k item with Some _ => true | None => false end)
           publicFields.
Proof.
  destruct v1, v2, v3, v4, v5, v6, v7; repeat split; reflexivity.
Qed.

(** C5. Every successful GetCoins answer is the upstream list mapped item
    by item, in the same order: it has the length of the upstream list, and
    its i-th item holds, under each of the seven public names, exactly what
    the i-th upstream record holds under that name (its string or number,
    [null], or nothing when the record lacks the key), and nothing under
    any other name. *)
Theorem getCoins_maps_upstream (w w1 : World) (r : Response) :
  getCoins w = (r, w1) ->
  status r = 200 ->
  exists coins,
    upstream w = inr coins /\
    List.length (elements (body r)) = List.length coins /\
    forall (i : nat) (coin : Coin),
      nth_error coins i = Some coin ->
      exists item,
        nth_error (elements (body r)) i = Some item /\
        prop "id" item =
          match id coin with
          | Present s => Some (JStr s) | Null => Some JNull | Absent => None
          end /\
        prop "name" item =
          match name coin with
          | Present s => Some (JStr s) | Null => Some JNull | Absent => None
          end /\
        prop "symbol" item =
          match symbol coin with
          | Present s => Some (JStr s) | Null => Some JNull | Absent => None
          end /\
        prop "current_price" item =
          match current_price coin with
          | Present q => Some (JNum q) | Null => Some JNull | Absent => None
          end /\
        prop "market_cap" item =
          match market_cap coin with
          | Present q => Some (JNum q) | Null => Some JNull | Absent => None
          end /\
        prop "price_change_percentage_24h" item =
          match price_change_percentage_24h coin with
          | Present q => Some (JNum q) | Null => Some JNull | Absent => None
          end /\
        prop "last_updated" item =
          match last_updated coin with
          | Present s => Some (JStr s) | Null => Some JNull | Absent => None
          end /\
        keys item =
          filter (fun k => match prop k item with
                           | Some _ => true
                           | None => false
                           end)
                 publicFields.
Proof.
  unfold getCoins, tryCatch, bind, axios_get, ret.
  destruct (upstream w) as [m|coins]; intros H Hs; inversion H; subst.
  - discriminate.
  - exists coins. split; [reflexivity|].
    split; [cbn [body elements]; apply length_map|].
    intros i coin Hi. exists (formatCoin coin).
    split; [cbn [body elements]; now apply map_nth_error|].
    unfold formatCoin.
    destruct (public_shape (readString (id coin)) (readString (name coin))
                (readString (symbol coin)) (readNumber (current_price coin))
                (readNumber (market_cap coin))
                (readNumber (price_change_percentage_24h coin))
                (readString (last_updated coin)))
      as [H1 [H2 [H3 [H4 [H5 [H6 [H7 H8]]]]]]].
    split; [rewrite H1; destruct (id coin); reflexivity|].
    split; [rewrite H2; destruct (name coin); reflexivity|].
    split; [rewrite H3; destruct (symbol coin); reflexivity|].
    split; [rewrite H4; destruct (current_price coin); reflexivity|].
    split; [rewrite H5; destruct (market_cap coin); reflexivity|].
    split; [rewrite H6; destruct (price_change_percentage_24h coin); reflexivity|].
    split; [rewrite H7; destruct (last_updated coin); reflexivity|].
    exact H8.
Qed.

Lemma getCoins_maps_upstream_witness :
  exists item,
    nth_error (elements (body (fst (getCoins bareWorld)))) 1 = Some item /\
    keys item = ["id"; "name"; "symbol"; "current_price"] /\
    prop "current_price" item = Some (JNum (inject_Z 2)) /\
    prop "market_cap" item = None.
Proof.
  destruct (getCoins_maps_upstream bareWorld (snd (getCoins bareWorld))
              (fst (getCoins bareWorld)))
    as [coins [Hu [_ Hi]]].
  - reflexivity.
  - reflexivity.
  - inversion Hu; subst coins.
    destruct (Hi 1%nat barecoin eq_refl)
      as [item [Hn [_ [_ [_ [Hp [Hm [_ [_ Hk]]]]]]]]].
    exists item. split; [exact Hn|]. split; [|split; [exact Hp | exact Hm]].
    rewrite Hk.
    assert (E : Some item = Some (formatCoin barecoin)) by (rewrite <- Hn; reflexivity).
    inversion E; subst item. reflexivity.
Defined.

(** C9. GetCoins leaves the world, and so the persisted history records,
    as they were, whether it answers 200 with the list or 500 with the
    message of the upstream error as [details]. *)
Theorem getCoins_no_persistence (w : World) :
  snd (getCoins w) = w /\
  docs (snd (getCoins w)) = docs w /\
  fst (getCoins w) =
  match upstream w with
  | inr coins => mkResponse 200 (JArr (map formatCoin coins))
  | inl message =>
      mkResponse 500
        (JObj [ ("error", JStr "Failed to fetch coins data from CoinGecko");
                ("details", JStr message) ])
  end.
Proof.
  unfold getCoins, tryCatch, bind, axios_get, ret.
  destruct (upstream w); simpl; auto.
Qed.

(** ** Health check *)

(** C8. The health check answers every request with 200 and status "OK";
    its database field is "Connected" when the connection state is
    [connected] and "Disconnected" in each of the four other states; and
    all it does to the world is read the clock once, for its timestamp: no
    round trip to MongoDB is made, the pending ones are still pending, and
    the collection and the connection state are as they were. *)
Theorem health_always_ok (w : World) :
  status (fst (health w)) = 200 /\
  prop "status" (body (fst (health w))) = Some (JStr "OK") /\
  prop "database" (body (fst (health w))) =
    Some (JStr match readyState w with
               | connected => "Connected"
               | disconnected | connecting | disconnecting | uninitialized =>
                   "Disconnected"
               end) /\
  prop "timestamp" (body (fst (health w))) = Some (JDate (clock w)) /\
  keys (body (fst (health w))) = ["status"; "timestamp"; "database"; "endpoints"] /\
  snd (health w) = tick w /\
  roundTrips (snd (health w)) = roundTrips w /\
  docs (snd (health w)) = docs w /\
  readyState (snd (health w)) = readyState w /\
  upstream (snd (health w)) = upstream w.
Proof.
  unfold health. simpl. destruct (readyState w); simpl; repeat split.
Qed.

(** ** POST /api/history *)

(** C1. A PostHistory request answered 201 has read the upstream list,
    read the clock exactly once, and appended to the collection one record
    per upstream coin, in order, each carrying that one reading as its
    timestamp, whatever the clock does afterwards; the answer has
    [success: true], a [recordsCount] equal to the number of upstream coins,
    and that timestamp. *)
Theorem postHistory_success (w w1 : World) (r : Response) :
  postHistory w = (r, w1) ->
  status r = 201 ->
  exists coins new,
    upstream w = inr coins /\
    docs w1 = docs w ++ new /\
    List.length new = List.length coins /\
    Forall2 (recordOf (clock w)) coins new /\
    Forall (fun d => History.timestamp d = clock w) new /\
    clock w1 = clock (tick w) /\
    ticks w1 = ticks (tick w) /\
    body r =
      JObj [ ("success", JBool true);
             ("message", JStr "Snapshot stored successfully");
             ("recordsCount", JInt (List.length coins));
             ("timestamp", JDate (clock w)) ].
Proof.
  unfold postHistory, tryCatch. intros H Hs.
  unfold bind at 1 in H. unfold axios_get at 1 in H.
  destruct (upstream w) as [m|coins] eqn:U.
  - inversion H; subst. discriminate.
  - unfold bind at 1 in H. unfold newDate in H.
    unfold bind in H.
    destruct (saveEach (clock w) coins [] (tick w)) as [[saved|m] w2] eqn:S.
    + unfold ret in H. inversion H; subst. clear H Hs.
      pose proof (saveEach_clock _ _ _ _ _ _ S) as [Hc Ht].
      apply saveEach_returned in S. destruct S as [new [-> [Hd Hf]]].
      simpl. exists coins, new.
      assert (Hl : List.length new = List.length coins).
      { symmetry. eapply Forall2_length. exact Hf. }
      repeat split; auto.
      * clear -Hf. induction Hf as [|c d cs ds Hcd _ IH]; constructor; auto.
        unfold recordOf in Hcd. tauto.
      * now rewrite Hl.
    + inversion H; subst. discriminate.
Qed.

Lemma postHistory_success_witness :
  exists new,
    docs (snd (postHistory freshWorld)) = docs freshWorld ++ new /\
    List.length new = 2%nat /\
    Forall (fun d => History.timestamp d = 1714557600000) new /\
    clock (snd (postHistory freshWorld)) = 1714557600250 /\
    ticks (snd (postHistory freshWorld)) = [40; 75; 310] /\
    prop "recordsCount" (body (fst (postHistory freshWorld))) = Some (JInt 2).
Proof.
  destruct (postHistory_success freshWorld (snd (postHistory freshWorld))
              (fst (postHistory freshWorld)))
    as [coins [new [Hu [Hd [Hl [_ [Hf [Hc [Ht Hb]]]]]]]]].
  - reflexivity.
  - reflexivity.
  - inversion Hu; subst. exists new. rewrite Hb. repeat split; auto.
Defined.

(** C6. When the write for one coin of the batch fails, after the writes
    for the coins before it went through (the loop starts once the clock
    has been read), PostHistory answers 500 with
    [success: false], a fixed [error] and the message of the failure as
    [details]; the records written before the failure stay in the
    collection; and the answer has no [recordsCount]. *)
Theorem postHistory_write_failure
    (w w1 w2 : World) (pre post : list Coin) (coin : Coin)
    (saved : list History.Doc) (message : string) :
  upstream w = inr (pre ++ coin :: post) ->
  saveEach (clock w) pre [] (tick w) = (Returned saved, w1) ->
  History_create (historyInput coin (clock w)) w1 = (Threw message, w2) ->
  postHistory w =
    (mkResponse 500
       (JObj [ ("success", JBool false);
               ("error", JStr "Failed to store history snapshot");
               ("details", JStr message) ]),
     w2) /\
  docs w2 = docs w ++ saved /\
  List.length saved = List.length pre /\
  Forall2 (recordOf (clock w)) pre saved /\
  prop "recordsCount" (body (fst (postHistory w))) = None.
Proof.
  intros U S C.
  assert (P : postHistory w =
    (mkResponse 500
       (JObj [ ("success", JBool false);
               ("error", JStr "Failed to store history snapshot");
               ("details", JStr message) ]),
     w2)).
  { unfold postHistory, tryCatch.
    unfold bind at 1. unfold axios_get at 1. rewrite U.
    unfold bind at 1. unfold newDate.
    unfold bind at 1. rewrite saveEach_app.
    unfold bind at 1. rewrite S. simpl.
    unfold bind at 1. rewrite C. reflexivity. }
  rewrite P. simpl.
  apply saveEach_returned in S. destruct S as [new [Hs [Hd Hf]]].
  simpl in Hs. subst new.
  apply create_threw in C. rewrite C.
  repeat split; auto.
  symmetry. eapply Forall2_length. exact Hf.
Qed.

Lemma postHistory_write_failure_witness :
  status (fst (postHistory partialWorld)) = 500 /\
  docs (snd (postHistory partialWorld)) =
    [ History.mkDoc 0 "bitcoin" "Bitcoin" "btc" (inject_Z 65000)
        (inject_Z 1280000000000) (Qmake (-3) 2) 1714557600000 0 ] /\
  prop "details" (body (fst (postHistory partialWorld))) =
    Some (JStr "History validation failed: change24h: Path `change24h` is required.").
Proof.
  destruct (postHistory_write_failure partialWorld
              (snd (saveEach (clock partialWorld) [bitcoin] []
                      (tick partialWorld)))
              (snd (saveEach (clock partialWorld) [bitcoin] []
                      (tick partialWorld)))
              [bitcoin] [ethereum] newcoin
              [ History.mkDoc 0 "bitcoin" "Bitcoin" "btc" (inject_Z 65000)
                  (inject_Z 1280000000000) (Qmake (-3) 2) 1714557600000 0 ]
              "History validation failed: change24h: Path `change24h` is required.")
    as [P [D _]].
  - reflexivity.
  - reflexivity.
  - reflexivity.
  - rewrite P. repeat split.
Defined.

(** PostHistory only ever appends: whatever it answers, the collection
    afterwards is the collection before followed by the records of the
    first coins of the upstream list, all with the timestamp of the
    request. *)
Lemma postHistory_appends (w w1 : World) (r : Response) :
  postHistory w = (r, w1) ->
  exists new,
    docs w1 = docs w ++ new /\
    Forall (fun d => History.timestamp d = clock w) new /\
    (status r = 201 \/ status r = 500).
Proof.
  unfold postHistory, tryCatch. intros H.
  unfold bind at 1 in H. unfold axios_get at 1 in H.
  destruct (upstream w) as [m|coins] eqn:U.
  - inversion H; subst. exists []. rewrite app_nil_r. simpl. auto.
  - unfold bind at 1 in H. unfold newDate in H. unfold bind in H.
    assert (T : forall cs new, Forall2 (recordOf (clock w)) cs new ->
                Forall (fun d => History.timestamp d = clock w) new).
    { intros cs new F. induction F as [|c d ? ? Hcd _ IH]; constructor; auto.
      unfold recordOf in Hcd. tauto. }
    destruct (saveEach (clock w) coins [] (tick w)) as [[saved|m] w2] eqn:S.
    + unfold ret in H. inversion H; subst.
      apply saveEach_returned in S. destruct S as [new [_ [Hd Hf]]].
      exists new. simpl. eauto.
    + inversion H; subst.
      apply saveEach_threw in S.
      destruct S as [pre [c [post [new [_ [Hd Hf]]]]]].
      exists new. simpl. eauto.
Qed.

(** ** GET /api/history/:coinId *)

Lemma find_returned (coinId : string) (limit : option Z) (w w1 : World)
    (history : list History.Selected) :
  History_find_sort_limit_select coinId limit w = (Returned history, w1) ->
  exists n,
    (limit = Some n \/ (limit = None /\ nanLimit w = NaNTreatedAs n)) /\
    history =
      map History.select
        (History.limitTo n (History.sortNewestFirst (stored coinId w))) /\
    docs w1 = docs w.
Proof.
  unfold History_find_sort_limit_select. intros H.
  step (resolveLimit limit) w; [|discriminate].
  assert (Hn : (limit = Some a \/ (limit = None /\ nanLimit w = NaNTreatedAs a))
               /\ w0 = w).
  { unfold resolveLimit in E. destruct limit as [n|].
    - inversion E; subst. auto.
    - destruct (nanLimit w); inversion E; subst. auto. }
  destruct Hn as [Hn ->]. clear E.
  step roundTrip w; [|discriminate].
  apply roundTrip_docs in E. destruct E as [Ed _].
  inversion H; subst. exists a. unfold stored. rewrite Ed. auto.
Qed.

(** With a limit that is a number, the query returns as soon as its round
    trip goes through. *)
Lemma find_answered (coinId : string) (n : Z) (w w1 : World) :
  roundTrip w = (Returned tt, w1) ->
  History_find_sort_limit_select coinId (Some n) w =
  (Returned
     (map History.select
        (History.limitTo n (History.sortNewestFirst (stored coinId w)))),
   w1).
Proof.
  intros R. unfold History_find_sort_limit_select.
  unfold bind at 1. unfold resolveLimit.
  unfold bind at 1. rewrite R.
  apply roundTrip_docs in R. destruct R as [Ed _].
  unfold stored. now rewrite Ed.
Qed.

(** The three ways [getHistory] ends. *)
Lemma getHistory_threw (coinId : string) (limit : option string) (w w1 : World)
    (message : string) :
  History_find_sort_limit_select coinId (parsedLimit limit) w = (Threw message, w1) ->
  getHistory coinId limit w =
  (mkResponse 500
     (JObj [ ("error", JStr "Failed to fetch historical data");
             ("details", JStr message) ]),
   w1).
Proof. intros H. unfold getHistory, tryCatch, bind. now rewrite H. Qed.

Lemma getHistory_empty (coinId : string) (limit : option string) (w w1 : World) :
  History_find_sort_limit_select coinId (parsedLimit limit) w = (Returned [], w1) ->
  getHistory coinId limit w =
  (mkResponse 404
     (JObj [ ("error", JStr "No historical data found");
             ("message",
              JStr ("No history found for " ++ coinId ++
                    ". Run POST /api/history first.")%string);
             ("coinId", JStr coinId) ]),
   w1).
Proof. intros H. unfold getHistory, tryCatch, bind. now rewrite H. Qed.

Lemma getHistory_found (coinId : string) (limit : option string) (w w1 : World)
    (history : list History.Selected) :
  History_find_sort_limit_select coinId (parsedLimit limit) w = (Returned history, w1) ->
  history <> [] ->
  getHistory coinId limit w =
  (mkResponse 200
     (JObj [ ("coinId", JStr coinId);
             ("recordsCount", JInt (List.length (rev history)));
             ("data", JArr (map History.toJSON (rev history))) ]),
   w1).
Proof.
  intros H Hne. unfold getHistory, tryCatch, bind. rewrite H.
  destruct history; [congruence | reflexivity].
Qed.

(** A 200 answer comes from a query that returned at least one document. *)
Lemma getHistory_200 (coinId : string) (limit : option string) (w w1 : World)
    (r : Response) :
  getHistory coinId limit w = (r, w1) ->
  status r = 200 ->
  exists history,
    History_find_sort_limit_select coinId (parsedLimit limit) w =
      (Returned history, w1) /\
    history <> [] /\
    r = mkResponse 200
          (JObj [ ("coinId", JStr coinId);
                  ("recordsCount", JInt (List.length (rev history)));
                  ("data", JArr (map History.toJSON (rev history))) ]).
Proof.
  intros H Hs.
  destruct (History_find_sort_limit_select coinId (parsedLimit limit) w)
    as [[history|m] w2] eqn:Q.
  - destruct history as [|s history].
    + rewrite (getHistory_empty _ _ _ _ Q) in H. inversion H; subst. discriminate.
    + assert (Hne : s :: history <> []) by discriminate.
      rewrite (getHistory_found _ _ _ _ _ Q Hne) in H. inversion H; subst.
      exists (s :: history). auto.
  - rewrite (getHistory_threw _ _ _ _ _ Q) in H. inversion H; subst. discriminate.
Qed.

(** The documents a query returns are newest first. *)
Lemma find_newest_first (coinId : string) (limit : option Z) (w w1 : World)
    (history : list History.Selected) :
  History_find_sort_limit_select coinId limit w = (Returned history, w1) ->
  StronglySorted
    (fun a b => History.s_timestamp b <= History.s_timestamp a) history.
Proof.
  intros H. apply find_returned in H. destruct H as [n [_ [-> _]]].
  apply StronglySorted_map with (R := fun a b => History.s_timestamp b <= History.s_timestamp a).
  apply limitTo_sorted. apply sortNewestFirst_sorted.
Qed.

(** C2. In every 200 answer of GetHistory the data array is ordered oldest
    first by timestamp, however the records were inserted; and when the
    coin has between 1 and [limit] stored records, the array holds exactly
    those records. *)
Theorem getHistory_oldest_first
    (coinId : string) (limit : option string) (w w1 : World) (r : Response) :
  getHistory coinId limit w = (r, w1) ->
  status r = 200 ->
  exists items,
    prop "data" (body r) = Some (JArr (map History.toJSON items)) /\
    StronglySorted
      (fun a b => History.s_timestamp a <= History.s_timestamp b) items /\
    forall n,
      parsedLimit limit = Some n ->
      (1 <= List.length (stored coinId w))%nat ->
      Z.of_nat (List.length (stored coinId w)) <= n ->
      Permutation items (map History.select (stored coinId w)).
Proof.
  intros H Hs. apply getHistory_200 in H; [|exact Hs].
  destruct H as [history [Q [Hne ->]]].
  exists (rev history). split; [reflexivity|]. split.
  - apply find_newest_first in Q.
    apply StronglySorted_rev in Q. exact Q.
  - intros n Hn _ Hle. apply find_returned in Q.
    destruct Q as [n' [Hn' [-> _]]].
    assert (n' = n) as ->.
    { destruct Hn' as [Hn'|[Hn' _]]; congruence. }
    rewrite limitTo_all by (now rewrite sortNewestFirst_length).
    eapply perm_trans; [apply Permutation_sym, Permutation_rev|].
    apply Permutation_map, sortNewestFirst_perm.
Qed.

Lemma getHistory_oldest_first_witness :
  exists items,
    prop "data" (body (fst (getHistory "bitcoin" (Some "3") seededWorld))) =
      Some (JArr (map History.toJSON items)) /\
    StronglySorted
      (fun a b => History.s_timestamp a <= History.s_timestamp b) items /\
    Permutation items (map History.select (stored "bitcoin" seededWorld)).
Proof.
  destruct (getHistory_oldest_first "bitcoin" (Some "3") seededWorld
              (snd (getHistory "bitcoin" (Some "3") seededWorld))
              (fst (getHistory "bitcoin" (Some "3") seededWorld)))
    as [items [Hd [Hs Hp]]].
  - reflexivity.
  - reflexivity.
  - exists items. repeat split; auto.
    apply (Hp 3); [reflexivity | simpl; lia | simpl; lia].
Defined.

(** X8. Insertion order does not show: two collections holding the same
    records in different orders give data arrays with the same sequence of
    timestamps, when the limit lets all the records of the coin through. *)
Lemma getHistory_insertion_order
    (coinId : string) (limit : option string) (n : Z)
    (w w' w1 w1' : World) (r r' : Response) :
  Permutation (docs w) (docs w') ->
  parsedLimit limit = Some n ->
  Z.of_nat (List.length (stored coinId w)) <= n ->
  getHistory coinId limit w = (r, w1) ->
  getHistory coinId limit w' = (r', w1') ->
  status r = 200 ->
  status r' = 200 ->
  exists items items',
    prop "data" (body r) = Some (JArr (map History.toJSON items)) /\
    prop "data" (body r') = Some (JArr (map History.toJSON items')) /\
    map History.s_timestamp items = map History.s_timestamp items'.
Proof.
  intros P Hn Hle G G' Hs Hs'.
  assert (Ps : Permutation (stored coinId w) (stored coinId w'))
    by now apply filter_perm.
  assert (Hle' : Z.of_nat (List.length (stored coinId w')) <= n)
    by now rewrite <- (Permutation_length Ps).
  assert (K : forall v v1 a,
             Z.of_nat (List.length (stored coinId v)) <= n ->
             getHistory coinId limit v = (a, v1) -> status a = 200 ->
             exists items,
               prop "data" (body a) = Some (JArr (map History.toJSON items)) /\
               StronglySorted Z.le (map History.s_timestamp items) /\
               Permutation (map History.s_timestamp items)
                 (map History.timestamp (stored coinId v))).
  { intros v v1 a Hv Gv Sv. apply getHistory_200 in Gv; [|exact Sv].
    destruct Gv as [history [Q [_ ->]]].
    exists (rev history). split; [reflexivity|]. split.
    - apply StronglySorted_map.
      apply find_newest_first in Q. apply StronglySorted_rev in Q. exact Q.
    - apply find_returned in Q. destruct Q as [n' [Hn' [-> _]]].
      assert (n' = n) as ->.
      { destruct Hn' as [Hn'|[Hn' _]]; congruence. }
      rewrite limitTo_all by (now rewrite sortNewestFirst_length).
      rewrite <- map_rev, map_map. simpl.
      apply Permutation_map.
      eapply perm_trans; [apply Permutation_sym, Permutation_rev|].
      apply sortNewestFirst_perm. }
  destruct (K _ _ _ Hle G Hs) as [items [Hd [Hso Hp]]].
  destruct (K _ _ _ Hle' G' Hs') as [items' [Hd' [Hso' Hp']]].
  exists items, items'. split; [exact Hd|]. split; [exact Hd'|].
  apply sorted_perm_unique; auto.
  eapply perm_trans; [exact Hp|].
  eapply perm_trans; [|apply Permutation_sym; exact Hp'].
  now apply Permutation_map.
Qed.

(** When MongoDB is unreachable the query throws, and the answer is
    500 whether or not the coin has stored records. *)
Lemma getHistory_outage_is_500 :
  stored "doesnotexist" outageWorld = [] /\
  status (fst (getHistory "doesnotexist" None outageWorld)) = 500 /\
  status (fst (getHistory "doesnotexist" None outageWorld)) <> 404.
Proof. repeat split. discriminate. Qed.

(** C3. For a coin with no stored record GetHistory never answers 200,
    and whenever its query returns, which is then with zero records, it
    answers 404 with the coinId echoed back (a query that throws is a store
    error, answered 500); and no 200 answer of GetHistory, for any coin,
    has an empty data array. *)
Theorem getHistory_no_records
    (coinId : string) (limit : option string) (w : World) :
  (stored coinId w = [] ->
   status (fst (getHistory coinId limit w)) <> 200 /\
   forall history w1,
     History_find_sort_limit_select coinId (parsedLimit limit) w =
       (Returned history, w1) ->
     getHistory coinId limit w =
       (mkResponse 404
          (JObj [ ("error", JStr "No historical data found");
                  ("message",
                   JStr ("No history found for " ++ coinId ++
                         ". Run POST /api/history first.")%string);
                  ("coinId", JStr coinId) ]),
        w1)) /\
  (status (fst (getHistory coinId limit w)) = 200 ->
   exists item rest,
     prop "data" (body (fst (getHistory coinId limit w))) =
       Some (JArr (item :: rest))).
Proof.
  split.
  - intros Hst.
    assert (Hnil : forall history w1,
               History_find_sort_limit_select coinId (parsedLimit limit) w =
                 (Returned history, w1) -> history = []).
    { intros history w1 Q. apply find_returned in Q.
      destruct Q as [n [_ [-> _]]]. rewrite Hst. simpl.
      now rewrite limitTo_nil. }
    split.
    + intros Hs.
      destruct (getHistory coinId limit w) as [r w1] eqn:G.
      apply getHistory_200 in G; [|exact Hs].
      destruct G as [history [Q [Hne _]]]. apply Hnil in Q. contradiction.
    + intros history w1 Q. pose proof (Hnil _ _ Q) as ->.
      now apply getHistory_empty.
  - intros Hs.
    destruct (getHistory coinId limit w) as [r w1] eqn:G.
    apply getHistory_200 in G; [|exact Hs].
    destruct G as [history [_ [Hne ->]]]. simpl.
    destruct (rev history) as [|s l] eqn:R.
    + apply (f_equal (@rev _)) in R. rewrite rev_involutive in R. contradiction.
    + simpl. eauto.
Qed.

Lemma getHistory_no_records_witness :
  status (fst (getHistory "doesnotexist" None seededWorld)) = 404 /\
  prop "coinId" (body (fst (getHistory "doesnotexist" None seededWorld))) =
    Some (JStr "doesnotexist") /\
  exists item rest,
    prop "data" (body (fst (getHistory "bitcoin" None seededWorld))) =
      Some (JArr (item :: rest)).
Proof.
  destruct (getHistory_no_records "doesnotexist" None seededWorld) as [H _].
  destruct (H eq_refl) as [_ H404].
  rewrite (H404 [] seededWorld eq_refl).
  destruct (getHistory_no_records "bitcoin" None seededWorld) as [_ H200].
  repeat split. apply H200. reflexivity.
Defined.

(** C4, as stated, fails for the limit 0: the coin has three stored
    records, the request asks for [limit=0], and the 200 answer carries
    three items. *)
Lemma getHistory_limit_zero_exceeds :
  parsedLimit (Some "0") = Some 0 /\
  status (fst (getHistory "bitcoin" (Some "0") seededWorld)) = 200 /\
  prop "recordsCount" (body (fst (getHistory "bitcoin" (Some "0") seededWorld))) =
    Some (JInt 3) /\
  ~ (Z.of_nat 3 <= 0).
Proof.
  split; [reflexivity|]. split; [reflexivity|]. split; [reflexivity|].
  simpl. lia.
Qed.

(** C4, amended. In every 200 answer of GetHistory [recordsCount] is the
    length of the data array; that length is at most the requested limit
    whenever the limit parses to a positive integer, and at most 24 when
    the request has no limit parameter. *)
Theorem getHistory_count
    (coinId : string) (limit : option string) (w w1 : World) (r : Response) :
  getHistory coinId limit w = (r, w1) ->
  status r = 200 ->
  exists data,
    prop "data" (body r) = Some (JArr data) /\
    prop "recordsCount" (body r) = Some (JInt (List.length data)) /\
    (forall n, parsedLimit limit = Some n -> 0 < n ->
               Z.of_nat (List.length data) <= n) /\
    (limit = None -> Z.of_nat (List.length data) <= 24).
Proof.
  intros H Hs. apply getHistory_200 in H; [|exact Hs].
  destruct H as [history [Q [Hne ->]]].
  exists (map History.toJSON (rev history)). simpl.
  rewrite length_map. split; [reflexivity|]. split; [reflexivity|].
  assert (B : forall n, parsedLimit limit = Some n -> 0 < n ->
                        Z.of_nat (List.length (rev history)) <= n).
  { intros n Hn Hpos. apply find_returned in Q.
    destruct Q as [n' [Hn' [-> _]]].
    assert (n' = n) as ->.
    { destruct Hn' as [Hn'|[Hn' _]]; congruence. }
    rewrite length_rev, length_map.
    pose proof (limitTo_length_le n
                  (History.sortNewestFirst (stored coinId w))) as L.
    lia. }
  split; [exact B|].
  intros ->. apply B; [reflexivity | lia].
Qed.

Lemma getHistory_count_witness :
  exists data,
    prop "data" (body (fst (getHistory "bitcoin" (Some "2") seededWorld))) =
      Some (JArr data) /\
    prop "recordsCount" (body (fst (getHistory "bitcoin" (Some "2") seededWorld))) =
      Some (JInt (List.length data)) /\
    Z.of_nat (List.length data) <= 2.
Proof.
  destruct (getHistory_count "bitcoin" (Some "2") seededWorld
              (snd (getHistory "bitcoin" (Some "2") seededWorld))
              (fst (getHistory "bitcoin" (Some "2") seededWorld)))
    as [data [Hd [Hc [Hb _]]]].
  - reflexivity.
  - reflexivity.
  - exists data. repeat split; auto. apply Hb; [reflexivity | lia].
Defined.

(** C7, as stated, fails: the one item of this 200 answer has four
    fields, and [_id] is one of them. *)
Lemma getHistory_item_has_id :
  status (fst (getHistory "ethereum" None seededWorld)) = 200 /\
  prop "data" (body (fst (getHistory "ethereum" None seededWorld))) =
    Some (JArr [ JObj [ ("_id", JObjectId 1);
                        ("price", JNum (inject_Z 3000));
                        ("change24h", JNum (Qmake 1 4));
                        ("timestamp", JDate 2000) ] ]) /\
  In "_id" (keys (JObj [ ("_id", JObjectId 1);
                         ("price", JNum (inject_Z 3000));
                         ("change24h", JNum (Qmake 1 4));
                         ("timestamp", JDate 2000) ])) /\
  ~ In "_id" ["price"; "timestamp"; "change24h"].
Proof.
  split; [reflexivity|]. split; [reflexivity|]. split; [now left|].
  simpl. intros [H|[H|[H|[]]]]; discriminate.
Qed.

(** C7, amended. Every item of the data array of a 200 answer of
    GetHistory is the projection of a stored record of the coin onto
    exactly four fields: the selected [price], [timestamp] and
    [change24h], and the [_id] of the record. *)
Theorem getHistory_item_fields
    (coinId : string) (limit : option string) (w w1 : World) (r : Response) :
  getHistory coinId limit w = (r, w1) ->
  status r = 200 ->
  exists data,
    prop "data" (body r) = Some (JArr data) /\
    Forall
      (fun item =>
         Permutation (keys item) ["_id"; "price"; "timestamp"; "change24h"] /\
         exists d,
           In d (stored coinId w) /\
           item =
             JObj [ ("_id", JObjectId (History._id d));
                    ("price", JNum (History.price d));
                    ("change24h", JNum (History.change24h d));
                    ("timestamp", JDate (History.timestamp d)) ])
      data.
Proof.
  intros H Hs. apply getHistory_200 in H; [|exact Hs].
  destruct H as [history [Q [Hne ->]]].
  exists (map History.toJSON (rev history)). split; [reflexivity|].
  apply find_returned in Q. destruct Q as [n [_ [-> _]]].
  rewrite Forall_forall. intros item Hi.
  apply in_map_iff in Hi. destruct Hi as [s [<- Hs']].
  apply in_rev in Hs'. apply in_map_iff in Hs'. destruct Hs' as [d [<- Hd]].
  split; [simpl; apply perm_skip, perm_skip, perm_swap|].
  exists d. split; [|reflexivity].
  eapply Permutation_in; [apply sortNewestFirst_perm|].
  unfold History.limitTo in Hd. destruct (n =? 0); [exact Hd|].
  eapply in_firstn. exact Hd.
Qed.

Lemma getHistory_item_fields_witness :
  exists data,
    prop "data" (body (fst (getHistory "bitcoin" None seededWorld))) =
      Some (JArr data) /\
    Forall
      (fun item => Permutation (keys item) ["_id"; "price"; "timestamp"; "change24h"])
      data.
Proof.
  destruct (getHistory_item_fields "bitcoin" None seededWorld
              (snd (getHistory "bitcoin" None seededWorld))
              (fst (getHistory "bitcoin" None seededWorld)))
    as [data [Hd Hf]].
  - reflexivity.
  - reflexivity.
  - exists data. split; [exact Hd|].
    eapply Forall_impl; [|exact Hf]. intros item [Hk _]. exact Hk.
Defined.

(** C10. When the limit parameter parses to 0 the limit clause lets every
    document through: if the round trip to the store goes through and the
    coin has stored records, GetHistory answers 200 with all of them,
    oldest first, so that the data array is longer than the limit asked
    for. *)
Theorem getHistory_limit_zero
    (coinId : string) (limit : option string) (w w1 : World) :
  parsedLimit limit = Some 0 ->
  roundTrip w = (Returned tt, w1) ->
  stored coinId w <> [] ->
  exists items,
    getHistory coinId limit w =
      (mkResponse 200
         (JObj [ ("coinId", JStr coinId);
                 ("recordsCount", JInt (List.length (stored coinId w)));
                 ("data", JArr (map History.toJSON items)) ]),
       w1) /\
    Permutation items (map History.select (stored coinId w)) /\
    List.length items = List.length (stored coinId w) /\
    0 < Z.of_nat (List.length items).
Proof.
  intros Hl R Hne.
  pose proof (find_answered coinId 0 w w1 R) as Q.
  rewrite limitTo_zero in Q. rewrite <- Hl in Q.
  set (history := map History.select (History.sortNewestFirst (stored coinId w))) in *.
  assert (Hlen : List.length (rev history) = List.length (stored coinId w)).
  { unfold history. now rewrite length_rev, length_map, sortNewestFirst_length. }
  assert (Hh : history <> []).
  { intros E. apply (f_equal (@List.length _)) in E.
    rewrite <- (length_rev history), Hlen in E.
    destruct (stored coinId w); [congruence | discriminate]. }
  exists (rev history). split; [|split; [|split]].
  - rewrite (getHistory_found _ _ _ _ _ Q Hh). now rewrite Hlen.
  - eapply perm_trans; [apply Permutation_sym, Permutation_rev|].
    apply Permutation_map, sortNewestFirst_perm.
  - exact Hlen.
  - rewrite Hlen. destruct (stored coinId w); [congruence | simpl; lia].
Qed.

Lemma getHistory_limit_zero_witness :
  exists items,
    fst (getHistory "bitcoin" (Some "0") seededWorld) =
      mkResponse 200
        (JObj [ ("coinId", JStr "bitcoin");
                ("recordsCount", JInt 3);
                ("data", JArr (map History.toJSON items)) ]) /\
    List.length items = 3%nat.
Proof.
  destruct (getHistory_limit_zero "bitcoin" (Some "0") seededWorld seededWorld)
    as [items [G [_ [L _]]]].
  - reflexivity.
  - reflexivity.
  - discriminate.
  - exists items. rewrite G. split; [reflexivity | exact L].
Defined.

(** ** Validation and the write loop, further *)

Lemma requiredFailures_timestamp (coin : Coin) (t t' : Z) :
  History.requiredFailures (historyInput coin t) =
  History.requiredFailures (historyInput coin t').
Proof. reflexivity. Qed.

Lemma validate_passes (timestamp : Z) (input : History.Input) :
  History.requiredFailures input = [] ->
  exists mk, History.validate timestamp input = inr mk.
Proof.
  intros H. unfold History.validate. rewrite H.
  unfold History.requiredFailures in H.
  destruct (History.in_coinId input) as [| |i]; try discriminate H.
  simpl in H. destruct (History.emptyString i); [discriminate H|].
  destruct (History.in_name input) as [| |n]; try discriminate H.
  simpl in H. destruct (History.emptyString n); [discriminate H|].
  destruct (History.in_symbol input) as [| |s]; try discriminate H.
  simpl in H. destruct (History.emptyString s); [discriminate H|].
  destruct (History.in_price input); try discriminate H.
  destruct (History.in_marketCap input); try discriminate H.
  destruct (History.in_change24h input); try discriminate H.
  eauto.
Qed.

Lemma validate_refuses (timestamp : Z) (input : History.Input) :
  History.requiredFailures input <> [] ->
  History.validate timestamp input =
  inl (History.validationMessage (History.requiredFailures input)).
Proof.
  unfold History.validate.
  destruct (History.requiredFailures input); [congruence | reflexivity].
Qed.

(** A document that fails validation is refused before anything is sent
    to MongoDB. *)
Lemma create_refuses (input : History.Input) (w : World) :
  History.requiredFailures input <> [] ->
  History_create input w =
  (Threw (History.validationMessage (History.requiredFailures input)),
   settledWorld input w).
Proof.
  intros H. rewrite create_unfold.
  now rewrite (validate_refuses _ _ H).
Qed.

Lemma create_passes_schema (input : History.Input) (w w1 : World)
    (d : History.Doc) :
  History_create input w = (Returned d, w1) -> satisfiesSchema d.
Proof.
  intros H. apply create_returned in H. destruct H as [_ [mk [V ->]]].
  pose proof (validate_inr _ _ _ V (nextId w)) as [_ [Hc [Hn [Hs _]]]].
  unfold History.validate in V.
  destruct (History.requiredFailures input) eqn:F; [|discriminate].
  unfold History.requiredFailures in F. rewrite Hc, Hn, Hs in F.
  unfold satisfiesSchema. simpl in F.
  destruct (History.coinId (mk (nextId w))); [discriminate F|].
  destruct (History.name (mk (nextId w))); [discriminate F|].
  destruct (History.symbol (mk (nextId w))); [discriminate F|].
  repeat split; discriminate.
Qed.

(** The write for a valid coin goes as its round trip goes. *)
Lemma create_valid (input : History.Input) (w : World) :
  History.requiredFailures input = [] ->
  match roundTrips w with
  | Some m :: _ => exists w1, History_create input w = (Threw m, w1)
  | None :: rest =>
      exists d w1, History_create input w = (Returned d, w1) /\
                   roundTrips w1 = rest
  | [] =>
      exists d w1, History_create input w = (Returned d, w1) /\
                   roundTrips w1 = []
  end.
Proof.
  intros H.
  destruct (validate_passes (settledTimestamp input w) input H) as [mk V].
  rewrite create_unfold, V.
  destruct (settledWorld_frame input w) as [_ [_ Fr]].
  unfold bind, roundTrip, insertOne. rewrite Fr.
  destruct (roundTrips w) as [|[m|] rest] eqn:R; simpl; eauto.
Qed.

(** The loop runs to its end exactly when every coin passes validation
    and the round trips, one per coin, all go through. *)
Lemma saveEach_completes (timestamp : Z) (coins : list Coin) :
  forall (acc : list History.Doc) (w : World),
    (exists saved w1, saveEach timestamp coins acc w = (Returned saved, w1)) <->
    (Forall validCoin coins /\ goThrough (List.length coins) w).
Proof.
  induction coins as [|coin rest IH]; intros acc w; simpl.
  - split; [intros _|intros _; unfold ret; eauto].
    split; constructor.
  - destruct (list_eq_dec string_dec
                (History.requiredFailures (historyInput coin timestamp)) [])
      as [V|V].
    + pose proof (create_valid _ w V) as C.
      unfold goThrough in *. simpl.
      destruct (roundTrips w) as [|[m|] trips] eqn:R.
      * destruct C as [d [w1 [C R1]]].
        rewrite (bind_returned _ _ _ _ _ C).
        rewrite (IH (acc ++ [d]) w1), R1, firstn_nil.
        split; intros [Hv _]; split; try constructor; auto.
        now inversion Hv.
      * destruct C as [w1 C]. rewrite (bind_threw _ _ _ _ _ C).
        split.
        -- intros [? [? ?]]. discriminate.
        -- intros [_ Hg]. inversion Hg. discriminate.
      * destruct C as [d [w1 [C R1]]].
        rewrite (bind_returned _ _ _ _ _ C).
        rewrite (IH (acc ++ [d]) w1), R1.
        split.
        -- intros [Hv Hg]. split; constructor; auto.
        -- intros [Hv Hg]. inversion Hv; subst. inversion Hg; subst. auto.
    + rewrite (bind_threw _ _ _ _ _ (create_refuses _ w V)).
      split.
      * intros [? [? ?]]. discriminate.
      * intros [Hv _]. inversion Hv; subst. contradiction.
Qed.

(** ** POST /api/history, further *)

(** X3. When the provider fails, PostHistory answers 500 with the provider's
    message as [details], stores nothing and makes no round trip to
    MongoDB: the world is left as it was. *)
Theorem postHistory_upstream_failure (w : World) (message : string) :
  upstream w = inl message ->
  postHistory w =
    (mkResponse 500
       (JObj [ ("success", JBool false);
               ("error", JStr "Failed to store history snapshot");
               ("details", JStr message) ]),
     w).
Proof.
  intros U. unfold postHistory, tryCatch, bind, axios_get. now rewrite U.
Qed.

Lemma postHistory_upstream_failure_witness :
  postHistory providerDownWorld =
    (mkResponse 500
       (JObj [ ("success", JBool false);
               ("error", JStr "Failed to store history snapshot");
               ("details", JStr "Request failed with status code 429") ]),
     providerDownWorld).
Proof. apply postHistory_upstream_failure. reflexivity. Defined.

(** X1. PostHistory answers 201 exactly when the provider answers, every coin
    of its list passes the [required] validators of the schema, and the
    round trips to MongoDB, one per coin, all go through. *)
Theorem postHistory_201_iff (w : World) :
  status (fst (postHistory w)) = 201 <->
  exists coins,
    upstream w = inr coins /\
    Forall validCoin coins /\
    goThrough (List.length coins) w.
Proof.
  unfold postHistory, tryCatch.
  unfold bind at 1. unfold axios_get at 1.
  destruct (upstream w) as [m|coins] eqn:U.
  - simpl. split; [discriminate|]. intros [coins [E _]]. discriminate.
  - unfold bind at 1. unfold newDate. unfold bind.
    pose proof (saveEach_completes (clock w) coins [] (tick w)) as K.
    change (goThrough (List.length coins) (tick w))
      with (goThrough (List.length coins) w) in K.
    destruct (saveEach (clock w) coins [] (tick w)) as [[saved|m] w1] eqn:S.
    + simpl. split; [intros _|reflexivity].
      exists coins. split; [reflexivity|]. apply K. eauto.
    + simpl. split; [discriminate|].
      intros [coins' [E HK]]. inversion E; subst coins'.
      apply K in HK. destruct HK as [? [? ?]]. discriminate.
Qed.

Lemma postHistory_201_iff_witness :
  status (fst (postHistory freshWorld)) = 201 /\
  status (fst (postHistory partialWorld)) <> 201.
Proof.
  split.
  - apply postHistory_201_iff. exists [bitcoin; ethereum].
    split; [reflexivity|]. split.
    + repeat constructor.
    + constructor.
  - intros H. apply postHistory_201_iff in H.
    destruct H as [coins [U [V _]]]. inversion U; subst coins.
    inversion V as [|? ? _ V']; subst. inversion V' as [|? ? Hn _]; subst.
    discriminate Hn.
Defined.

(** X2. When the coins before the first invalid one are written, PostHistory
    stops at the invalid coin: it answers 500 with Mongoose's validation
    message, which names the paths of that coin that are missing, the coins
    before it are stored and no coin after it is. *)
Theorem postHistory_first_invalid
    (w : World) (pre post : list Coin) (bad : Coin) :
  upstream w = inr (pre ++ bad :: post) ->
  Forall validCoin pre ->
  ~ validCoin bad ->
  goThrough (List.length pre) w ->
  exists new w1,
    postHistory w =
      (mkResponse 500
         (JObj [ ("success", JBool false);
                 ("error", JStr "Failed to store history snapshot");
                 ("details",
                  JStr (History.validationMessage
                          (History.requiredFailures
                             (historyInput bad (clock w))))) ]),
       w1) /\
    docs w1 = docs w ++ new /\
    Forall2 (recordOf (clock w)) pre new.
Proof.
  intros U Hv Hb Hg.
  destruct (proj2 (saveEach_completes (clock w) pre [] (tick w)) (conj Hv Hg))
    as [saved [w1 S]].
  pose proof (create_refuses (historyInput bad (clock w)) w1 Hb) as C.
  change (settledWorld (historyInput bad (clock w)) w1) with w1 in C.
  exists saved, w1. split.
  - unfold postHistory, tryCatch.
    unfold bind at 1. unfold axios_get at 1. rewrite U.
    unfold bind at 1. unfold newDate.
    unfold bind at 1. rewrite saveEach_app.
    unfold bind at 1. rewrite S. simpl.
    unfold bind at 1. rewrite C. reflexivity.
  - apply saveEach_returned in S. destruct S as [new [Hs [Hd Hf]]].
    simpl in Hs. subst new. auto.
Qed.

Lemma postHistory_first_invalid_witness :
  exists new w1,
    postHistory partialWorld =
      (mkResponse 500
         (JObj [ ("success", JBool false);
                 ("error", JStr "Failed to store history snapshot");
                 ("details",
                  JStr "History validation failed: change24h: Path `change24h` is required.") ]),
       w1) /\
    docs w1 = docs partialWorld ++ new /\
    Forall2 (recordOf (clock partialWorld)) [bitcoin] new.
Proof.
  apply (postHistory_first_invalid partialWorld [bitcoin] [ethereum] newcoin).
  - reflexivity.
  - repeat constructor.
  - discriminate.
  - repeat constructor.
Defined.

(** ** All four routes *)

Lemma find_docs (coinId : string) (limit : option Z) (w w1 : World)
    (o : Outcome (list History.Selected)) :
  History_find_sort_limit_select coinId limit w = (o, w1) ->
  docs w1 = docs w /\ nextId w1 = nextId w.
Proof.
  unfold History_find_sort_limit_select. intros H.
  step (resolveLimit limit) w.
  - assert (w0 = w) as ->.
    { unfold resolveLimit in E. destruct limit; [now inversion E|].
      destruct (nanLimit w); now inversion E. }
    step roundTrip w; inversion H; subst; now apply roundTrip_docs in E0.
  - inversion H; subst. unfold resolveLimit in E.
    destruct limit; [discriminate|].
    destruct (nanLimit w); now inversion E.
Qed.

(** GetHistory only reads. *)
Lemma getHistory_docs (coinId : string) (limit : option string) (w : World) :
  docs (snd (getHistory coinId limit w)) = docs w.
Proof.
  unfold getHistory, tryCatch, bind.
  destruct (History_find_sort_limit_select coinId (parsedLimit limit) w)
    as [[history|m] w1] eqn:Q; apply find_docs in Q; destruct Q as [Q _].
  - destruct (List.length history =? 0)%nat; exact Q.
  - exact Q.
Qed.

(** Whatever the loop does, what it adds to the collection passed
    validation. *)
Lemma saveEach_schema (timestamp : Z) (coins : list Coin) :
  forall (acc : list History.Doc) (w w1 : World)
         (o : Outcome (list History.Doc)),
    saveEach timestamp coins acc w = (o, w1) ->
    exists new, docs w1 = docs w ++ new /\ Forall satisfiesSchema new.
Proof.
  induction coins as [|coin rest IH]; intros acc w w1 o H; simpl in H.
  - inversion H; subst. exists []. now rewrite app_nil_r.
  - step (History_create (historyInput coin timestamp)) w.
    + apply IH in H. destruct H as [new [Hd Hf]].
      pose proof (create_passes_schema _ _ _ _ E) as Hs.
      apply create_returned in E. destruct E as [Ed _].
      exists (a :: new). rewrite Hd, Ed, <- app_assoc. auto.
    + inversion H; subst. apply create_threw in E.
      exists []. now rewrite app_nil_r.
Qed.

(** X4. No request removes, changes or reorders a stored record: after any
    request the collection is what it was, followed by what the request
    added; only POST /api/history adds anything, and every record it adds
    carries the one instant the request read from the clock, [clock w],
    not a later reading. *)
Theorem handle_appends_only (req : Request) (w : World) :
  exists new,
    docs (snd (handle req w)) = docs w ++ new /\
    Forall (fun d => History.timestamp d = clock w) new /\
    match req with
    | POST_history => True
    | GET_coins | GET_history _ _ | GET_health => new = []
    end.
Proof.
  destruct req as [| |coinId limit|]; simpl.
  - exists []. rewrite app_nil_r.
    unfold getCoins, tryCatch, bind, axios_get, ret.
    destruct (upstream w); simpl; auto.
  - destruct (postHistory w) as [r w1] eqn:P.
    apply postHistory_appends in P. destruct P as [new [Hd [Hf _]]].
    exists new. auto.
  - exists []. rewrite app_nil_r, getHistory_docs. auto.
  - exists []. rewrite app_nil_r. auto.
Qed.

(** On a world whose clock moves: both records of the snapshot carry the
    first reading, and the clock has gone on. *)
Example handle_post_fresh :
  map History.timestamp (docs (snd (handle POST_history freshWorld))) =
    [1714557600000; 1714557600000] /\
  clock (snd (handle POST_history freshWorld)) = 1714557600250.
Proof. split; reflexivity. Qed.

(** X5. The [required] validators hold of the whole collection for ever: if
    no stored record has an empty [coinId], [name] or [symbol] before a
    request, none has after it. *)
Theorem handle_keeps_schema (req : Request) (w : World) :
  Forall satisfiesSchema (docs w) ->
  Forall satisfiesSchema (docs (snd (handle req w))).
Proof.
  intros H. destruct req as [| |coinId limit|]; simpl.
  - unfold getCoins, tryCatch, bind, axios_get, ret.
    destruct (upstream w); exact H.
  - unfold postHistory, tryCatch.
    unfold bind at 1. unfold axios_get at 1.
    destruct (upstream w) as [m|coins]; [exact H|].
    unfold bind at 1. unfold newDate. unfold bind.
    destruct (saveEach (clock w) coins [] (tick w)) as [o w1] eqn:S.
    apply saveEach_schema in S. destruct S as [new [Hd Hf]].
    destruct o; simpl; rewrite Hd; apply Forall_app; auto.
  - now rewrite getHistory_docs.
  - exact H.
Qed.

Lemma handle_keeps_schema_witness :
  Forall satisfiesSchema (docs (snd (handle POST_history seededWorld))).
Proof.
  apply handle_keeps_schema.
  repeat constructor; discriminate.
Defined.

(** ** GET /api/history/:coinId, further *)

(** A limit never empties a result: 0 is no limit, and any other number
    lets at least one document through. *)
Lemma limitTo_nil_inv {A} (n : Z) (l : list A) :
  History.limitTo n l = [] -> l = [].
Proof.
  unfold History.limitTo. destruct (n =? 0) eqn:E; intros H; [exact H|].
  apply Z.eqb_neq in E.
  destruct (Z.to_nat (Z.abs n)) as [|k] eqn:K; [lia|].
  destruct l; [reflexivity | discriminate].
Qed.

Lemma find_nil_iff (coinId : string) (limit : option Z) (w w1 : World)
    (history : list History.Selected) :
  History_find_sort_limit_select coinId limit w = (Returned history, w1) ->
  history = [] <-> stored coinId w = [].
Proof.
  intros Q. apply find_returned in Q. destruct Q as [n [_ [-> _]]]. split.
  - intros H. apply map_eq_nil, limitTo_nil_inv in H.
    apply (f_equal (@List.length _)) in H.
    rewrite sortNewestFirst_length in H.
    destruct (stored coinId w); [reflexivity | discriminate].
  - intros ->. simpl. now rewrite limitTo_nil.
Qed.

(** X6. The status of a GetHistory answer says what happened: 500 exactly
    when the query threw, 404 exactly when it returned and the coin has no
    stored record, 200 exactly when it returned and the coin has one.  In
    particular no value of [limit] turns a coin that has records into a
    404. *)
Theorem getHistory_status
    (coinId : string) (limit : option string) (w : World) :
  (status (fst (getHistory coinId limit w)) = 500 <->
     exists message,
       fst (History_find_sort_limit_select coinId (parsedLimit limit) w) =
         Threw message) /\
  (status (fst (getHistory coinId limit w)) = 404 <->
     (exists history,
        fst (History_find_sort_limit_select coinId (parsedLimit limit) w) =
          Returned history) /\
     stored coinId w = []) /\
  (status (fst (getHistory coinId limit w)) = 200 <->
     (exists history,
        fst (History_find_sort_limit_select coinId (parsedLimit limit) w) =
          Returned history) /\
     stored coinId w <> []).
Proof.
  destruct (History_find_sort_limit_select coinId (parsedLimit limit) w)
    as [[history|m] w1] eqn:Q.
  - pose proof (find_nil_iff _ _ _ _ _ Q) as N. simpl fst.
    destruct history as [|s history].
    + rewrite (getHistory_empty _ _ _ _ Q). simpl.
      assert (St : stored coinId w = []) by now apply N.
      split; [|split].
      * split; [discriminate | intros [? ?]; discriminate].
      * split; [eauto | reflexivity].
      * split; [discriminate | intros [_ ?]; contradiction].
    + assert (Hne : s :: history <> []) by discriminate.
      rewrite (getHistory_found _ _ _ _ _ Q Hne). simpl.
      assert (St : stored coinId w <> []).
      { intros E. apply N in E. discriminate. }
      split; [|split].
      * split; [discriminate | intros [? ?]; discriminate].
      * split; [discriminate | intros [_ ?]; contradiction].
      * split; [eauto | reflexivity].
  - rewrite (getHistory_threw _ _ _ _ _ Q). simpl.
    split; [|split].
    + split; [eauto | reflexivity].
    + split; [discriminate | intros [[? ?] _]; discriminate].
    + split; [discriminate | intros [[? ?] _]; discriminate].
Qed.

Lemma StronglySorted_app_inv {A} (R : A -> A -> Prop) (l1 l2 : list A) :
  StronglySorted R (l1 ++ l2) ->
  forall x y, In x l1 -> In y l2 -> R x y.
Proof.
  induction l1 as [|a l1 IH]; simpl; intros H x y Hx Hy; [contradiction|].
  inversion H as [|? ? Hs Ha]; subst.
  destruct Hx as [->|Hx].
  - rewrite Forall_forall in Ha. apply Ha, in_or_app. now right.
  - now apply IH.
Qed.

(** X7. With a positive limit [n] the answer holds the [n] newest records of
    the coin, or all of them when there are fewer: the stored records
    split into those returned and those left out, the number returned is
    the smaller of [n] and the number stored, and no record left out is
    newer than one returned. *)
Theorem getHistory_newest
    (coinId : string) (limit : option string) (n : Z)
    (w w1 : World) (r : Response) :
  getHistory coinId limit w = (r, w1) ->
  status r = 200 ->
  parsedLimit limit = Some n ->
  0 < n ->
  exists kept dropped,
    prop "data" (body r) =
      Some (JArr (map History.toJSON (map History.select kept))) /\
    Permutation (stored coinId w) (kept ++ dropped) /\
    List.length kept = Nat.min (Z.to_nat n) (List.length (stored coinId w)) /\
    forall k d, In k kept -> In d dropped ->
                History.timestamp d <= History.timestamp k.
Proof.
  intros G Hs Hn Hpos. apply getHistory_200 in G; [|exact Hs].
  destruct G as [history [Q [_ ->]]].
  apply find_returned in Q. destruct Q as [n' [Hn' [-> _]]].
  assert (n' = n) as ->.
  { destruct Hn' as [Hn'|[Hn' _]]; congruence. }
  set (sorted := History.sortNewestFirst (stored coinId w)).
  assert (L : History.limitTo n sorted = firstn (Z.to_nat n) sorted).
  { unfold History.limitTo. destruct (n =? 0) eqn:E; [lia|].
    now rewrite Z.abs_eq by lia. }
  rewrite L.
  exists (rev (firstn (Z.to_nat n) sorted)), (skipn (Z.to_nat n) sorted).
  split; [|split; [|split]].
  - rewrite (map_rev History.select). reflexivity.
  - eapply perm_trans; [apply Permutation_sym, sortNewestFirst_perm|].
    fold sorted. rewrite <- (firstn_skipn (Z.to_nat n) sorted) at 1.
    apply Permutation_app_tail, Permutation_rev.
  - rewrite length_rev, length_firstn. unfold sorted.
    now rewrite sortNewestFirst_length.
  - intros k d Hk Hd. apply in_rev in Hk.
    pose proof (sortNewestFirst_sorted (stored coinId w)) as S.
    fold sorted in S. rewrite <- (firstn_skipn (Z.to_nat n) sorted) in S.
    exact (StronglySorted_app_inv _ _ _ S k d Hk Hd).
Qed.

Lemma getHistory_newest_witness :
  exists kept dropped,
    prop "data" (body (fst (getHistory "bitcoin" (Some "2") seededWorld))) =
      Some (JArr (map History.toJSON (map History.select kept))) /\
    Permutation (stored "bitcoin" seededWorld) (kept ++ dropped) /\
    List.length kept = 2%nat.
Proof.
  destruct (getHistory_newest "bitcoin" (Some "2") 2 seededWorld
              (snd (getHistory "bitcoin" (Some "2") seededWorld))
              (fst (getHistory "bitcoin" (Some "2") seededWorld)))
    as [kept [dropped [Hd [Hp [Hl _]]]]].
  - reflexivity.
  - reflexivity.
  - reflexivity.
  - lia.
  - exists kept, dropped. auto.
Defined.

Lemma getHistory_insertion_order_witness :
  exists items items',
    prop "data" (body (fst (getHistory "bitcoin" None seededWorld))) =
      Some (JArr (map History.toJSON items)) /\
    prop "data" (body (fst (getHistory "bitcoin" None shuffledWorld))) =
      Some (JArr (map History.toJSON items')) /\
    map History.s_timestamp items = map History.s_timestamp items'.
Proof.
  apply (getHistory_insertion_order "bitcoin" None 24
           seededWorld shuffledWorld
           (snd (getHistory "bitcoin" None seededWorld))
           (snd (getHistory "bitcoin" None shuffledWorld))).
  - exact (Permutation_rev (docs seededWorld)).
  - reflexivity.
  - simpl. lia.
  - reflexivity.
  - reflexivity.
  - reflexivity.
  - reflexivity.
Defined.

(** ** POST /api/history, then GET /api/history/:coinId *)

Lemma postHistory_201_inv (w w1 : World) (r : Response) :
  postHistory w = (r, w1) ->
  status r = 201 ->
  exists coins new,
    upstream w = inr coins /\
    docs w1 = docs w ++ new /\
    Forall2 (recordOf (clock w)) coins new.
Proof.
  unfold postHistory, tryCatch. intros H Hs.
  unfold bind at 1 in H. unfold axios_get at 1 in H.
  destruct (upstream w) as [m|coins] eqn:U.
  - inversion H; subst. discriminate.
  - unfold bind at 1 in H. unfold newDate in H. unfold bind in H.
    destruct (saveEach (clock w) coins [] (tick w)) as [[saved|m] w2] eqn:S.
    + inversion H; subst.
      apply saveEach_returned in S. destruct S as [new [_ [Hd Hf]]].
      exists coins, new. auto.
    + inversion H; subst. discriminate.
Qed.

Lemma Forall2_in_l {A B} (R : A -> B -> Prop) (l : list A) (l' : list B) (x : A) :
  Forall2 R l l' -> In x l -> exists y, In y l' /\ R x y.
Proof.
  induction 1 as [|a b l l' Hab _ IH]; simpl; [contradiction|].
  intros [->|Hx].
  - exists b. auto.
  - destruct (IH Hx) as [y [Hy Hr]]. exists y. auto.
Qed.

Lemma Forall2_in_r {A B} (R : A -> B -> Prop) (l : list A) (l' : list B) (y : B) :
  Forall2 R l l' -> In y l' -> exists x, In x l /\ R x y.
Proof.
  induction 1 as [|a b l l' Hab _ IH]; simpl; [contradiction|].
  intros [->|Hy].
  - exists a. auto.
  - destruct (IH Hy) as [x [Hx Hr]]. exists x. auto.
Qed.

(** The first document of a newest-first list is as new as any. *)
Lemma sortNewestFirst_head (l t : list History.Doc) (h : History.Doc) :
  History.sortNewestFirst l = h :: t ->
  In h l /\ forall x, In x l -> History.timestamp x <= History.timestamp h.
Proof.
  intros E. pose proof (sortNewestFirst_perm l) as P.
  pose proof (sortNewestFirst_sorted l) as S. rewrite E in P, S.
  split.
  - eapply Permutation_in; [exact P | now left].
  - intros x Hx.
    apply (Permutation_in _ (Permutation_sym P)) in Hx.
    inversion S as [|? ? _ Hh]; subst.
    destruct Hx as [<-|Hx]; [lia|].
    rewrite Forall_forall in Hh. now apply Hh.
Qed.

Lemma limitTo_cons {A} (n : Z) (h : A) (t : list A) :
  exists t', History.limitTo n (h :: t) = h :: t'.
Proof.
  unfold History.limitTo. destruct (n =? 0) eqn:E; [eauto|].
  apply Z.eqb_neq in E.
  destruct (Z.to_nat (Z.abs n)) as [|k] eqn:K; [lia|].
  simpl. eauto.
Qed.

(** X9. A snapshot shows in the history at once.  After a PostHistory
    answered 201, and provided the records the coin already had are older
    than the instant the request read from the clock, GetHistory for a coin
    of the snapshot, with any limit that is a number, answers 200 when its
    round trip goes through, and the newest item of its data, the last one,
    is a record of this snapshot: its timestamp is the instant PostHistory
    read, however far the clock has moved since, and its price is the one
    the provider gave for that coin. *)
Theorem postHistory_then_getHistory
    (w w1 w2 : World) (r : Response) (coins : list Coin) (coin : Coin)
    (coinId : string) (limit : option string) (n : Z) :
  postHistory w = (r, w1) ->
  status r = 201 ->
  upstream w = inr coins ->
  In coin coins ->
  id coin = Present coinId ->
  Forall (fun d => History.timestamp d < clock w) (stored coinId w) ->
  parsedLimit limit = Some n ->
  roundTrip w1 = (Returned tt, w2) ->
  exists older newest captured,
    getHistory coinId limit w1 =
      (mkResponse 200
         (JObj [ ("coinId", JStr coinId);
                 ("recordsCount", JInt (S (List.length older)));
                 ("data", JArr (map History.toJSON (older ++ [newest]))) ]),
       w2) /\
    History.s_timestamp newest = clock w /\
    In captured coins /\
    id captured = Present coinId /\
    current_price captured = Present (History.s_price newest).
Proof.
  intros P Hs U Hin Hid0 Hold Hn R.
  apply postHistory_201_inv in P; [|exact Hs].
  destruct P as [coins' [new [U' [Hd Hf]]]].
  rewrite U in U'. inversion U'; subst coins'. clear U'.
  (* the record of [coin] is among the stored records of its id *)
  destruct (Forall2_in_l _ _ _ _ Hf Hin) as [d0 [Hd0 Rd0]].
  assert (St : stored coinId w1 =
               stored coinId w ++ filter (History.matches coinId) new).
  { unfold stored. now rewrite Hd, filter_app. }
  assert (Hd0' : In d0 (stored coinId w1)).
  { rewrite St. apply in_or_app. right. apply filter_In. split; [exact Hd0|].
    unfold History.matches. apply String.eqb_eq.
    unfold recordOf in Rd0. destruct Rd0 as [Rd0 _]. congruence. }
  (* the newest stored record is one of this snapshot *)
  destruct (History.sortNewestFirst (stored coinId w1)) as [|h t] eqn:E.
  { apply (f_equal (@List.length _)) in E.
    rewrite sortNewestFirst_length in E.
    destruct (stored coinId w1); [contradiction | discriminate]. }
  destruct (sortNewestFirst_head _ _ _ E) as [Hh Hmax].
  assert (Hnew : In h new /\ History.coinId h = coinId).
  { rewrite St in Hh. apply in_app_or in Hh. destruct Hh as [Hh|Hh].
    - rewrite Forall_forall in Hold. apply Hold in Hh.
      apply Hmax in Hd0'. unfold recordOf in Rd0. lia.
    - apply filter_In in Hh. destruct Hh as [Hh Hm]. split; [exact Hh|].
      unfold History.matches in Hm. now apply String.eqb_eq in Hm. }
  destruct Hnew as [Hnew Hid].
  destruct (Forall2_in_r _ _ _ _ Hf Hnew) as [c [Hc Rc]].
  (* the answer *)
  pose proof (find_answered coinId n w1 w2 R) as Q.
  rewrite E in Q. destruct (limitTo_cons n h t) as [t' L]. rewrite L in Q.
  rewrite <- Hn in Q.
  assert (Hne : map History.select (h :: t') <> []) by discriminate.
  exists (rev (map History.select t')), (History.select h), c.
  split; [|split; [|split; [|split]]].
  - rewrite (getHistory_found _ _ _ _ _ Q Hne). simpl rev.
    rewrite length_app. simpl List.length. now rewrite Nat.add_1_r.
  - simpl. unfold recordOf in Rc. tauto.
  - exact Hc.
  - unfold recordOf in Rc. destruct Rc as [Rc _]. congruence.
  - simpl. unfold recordOf in Rc. tauto.
Qed.

Lemma postHistory_then_getHistory_witness :
  exists older newest,
    fst (getHistory "bitcoin" (Some "1") (snd (postHistory seededWorld))) =
      mkResponse 200
        (JObj [ ("coinId", JStr "bitcoin");
                ("recordsCount", JInt (S (List.length older)));
                ("data", JArr (map History.toJSON (older ++ [newest]))) ]) /\
    History.s_timestamp newest = 1714557600000 /\
    Present (History.s_price newest) = Present (inject_Z 65000).
Proof.
  destruct (postHistory_then_getHistory seededWorld
              (snd (postHistory seededWorld)) (snd (postHistory seededWorld))
              (fst (postHistory seededWorld))
              [bitcoin; ethereum] bitcoin "bitcoin" (Some "1") 1)
    as [older [newest [captured [G [Ht [Hc [Hi Hp]]]]]]].
  - reflexivity.
  - reflexivity.
  - reflexivity.
  - now left.
  - reflexivity.
  - repeat constructor.
  - reflexivity.
  - reflexivity.
  - exists older, newest. split; [exact (f_equal fst G)|]. split; [exact Ht|].
    destruct Hc as [<-|[<-|[]]]; [symmetry; exact Hp | discriminate Hi].
Defined.

(** ** The limit parameter *)

Lemma readDigits_step (c : ascii) (k : Z) (s : string) (acc : option Z) :
  digitValue c = Some k -> k < 10 ->
  readDigits 10 (String c s) acc =
  readDigits 10 s (Some (match acc with Some a => a * 10 + k | None => k end)).
Proof.
  intros D K. simpl. rewrite D.
  destruct (k <? 10) eqn:E; [reflexivity|]. apply Z.ltb_ge in E. lia.
Qed.

(** Reading the digits of a decimal numeral continues the number read so
    far. *)
Lemma readDigits_uint (d : Decimal.uint) :
  forall acc : nat,
    readDigits 10 (DecimalString.NilEmpty.string_of_uint d)
               (Some (Z.of_nat acc)) =
    Some (Z.of_nat (Nat.of_uint_acc d acc)).
Proof.
  induction d as [|d IH|d IH|d IH|d IH|d IH|d IH|d IH|d IH|d IH|d IH];
    intros acc; [reflexivity|..];
    cbn [DecimalString.NilEmpty.string_of_uint Nat.of_uint_acc];
    rewrite <- IH;
    match goal with
    | |- readDigits 10 (String ?c _) _ = _ =>
        let k := eval vm_compute in (Z.of_nat (nat_of_ascii c) - 48) in
        rewrite (readDigits_step c k) by (reflexivity || lia)
    end;
    do 2 f_equal; rewrite ?Nat.tail_mul_spec; lia.
Qed.

Lemma readDigits_uint_first (d : Decimal.uint) :
  d <> Decimal.Nil ->
  readDigits 10 (DecimalString.NilEmpty.string_of_uint d) None =
  Some (Z.of_nat (Nat.of_uint d)).
Proof.
  unfold Nat.of_uint.
  destruct d; intros H; [congruence|..];
    cbn [DecimalString.NilEmpty.string_of_uint Nat.of_uint_acc];
    rewrite <- readDigits_uint;
    match goal with
    | |- readDigits 10 (String ?c _) _ = _ =>
        let k := eval vm_compute in (Z.of_nat (nat_of_ascii c) - 48) in
        rewrite (readDigits_step c k) by (reflexivity || lia)
    end;
    reflexivity.
Qed.

(** A numeral has no sign, no white space and no [0x] in front, so
    [parseInt] reads it in base 10 from its first character. *)
Lemma parseInt_numeral (d : Decimal.uint) :
  d <> Decimal.Nil ->
  parseInt (DecimalString.NilEmpty.string_of_uint d) =
  match readDigits 10 (DecimalString.NilEmpty.string_of_uint d) None with
  | Some n =>
      match toNumber n with
      | Some v => Some (1 * v)
      | None => None
      end
  | None => None
  end.
Proof.
  destruct d as [|d|d|d|d|d|d|d|d|d|d]; intros H; [congruence|..];
    cbn [DecimalString.NilEmpty.string_of_uint].
  1: destruct d; cbn [DecimalString.NilEmpty.string_of_uint];
       try reflexivity;
       generalize (DecimalString.NilEmpty.string_of_uint d); intros r;
       destruct r as [|c3 r3]; reflexivity.
  all: generalize (DecimalString.NilEmpty.string_of_uint d); intros r;
       destruct r as [|c2 [|c3 r3]]; reflexivity.
Qed.

(** Every natural number up to 2^53 is a double. *)
Lemma toNumber_exact (z : Z) :
  0 <= z <= 2 ^ 53 -> toNumber z = Some z.
Proof.
  intros [H0 H1]. unfold toNumber.
  destruct (Z.log2 z <? 53) eqn:E; [reflexivity|].
  apply Z.ltb_ge in E.
  assert (Hz : 0 < z).
  { destruct (Z.eq_dec z 0) as [->|]; [simpl in E; lia | lia]. }
  pose proof (Z.log2_spec z Hz) as [L _].
  assert (P : 2 ^ 53 <= 2 ^ Z.log2 z) by (apply Z.pow_le_mono_r; lia).
  assert (z = 2 ^ 53) as -> by lia.
  reflexivity.
Qed.

(** X10. A limit written as the decimal numeral of a natural number up to
    2^53 is read as that number: [parseInt] reads it in base 10 with no
    sign, white space or prefix in the way, and the number is a double.
    (Above 2^53 the answer is the nearest double, see [toNumber].) *)
Theorem parsedLimit_decimal (n : nat) :
  Z.of_nat n <= 2 ^ 53 ->
  parsedLimit (Some (decimal n)) = Some (Z.of_nat n).
Proof.
  intros Hn.
  assert (T : toNumber (Z.of_nat n) = Some (Z.of_nat n))
    by (apply toNumber_exact; lia).
  unfold parsedLimit, decimal, DecimalString.NilZero.string_of_uint.
  destruct (Nat.to_uint n) as [|d|d|d|d|d|d|d|d|d|d] eqn:E;
    try (rewrite parseInt_numeral by discriminate;
         rewrite readDigits_uint_first by discriminate;
         rewrite <- E, DecimalNat.Unsigned.of_to, T;
         f_equal; lia).
  apply (f_equal Nat.of_uint) in E.
  rewrite DecimalNat.Unsigned.of_to in E. subst n. reflexivity.
Qed.

Lemma parsedLimit_decimal_witness :
  parsedLimit (Some (decimal 24)) = Some 24 /\
  parsedLimit (Some (decimal 1000)) = Some 1000.
Proof.
  split.
  - apply (parsedLimit_decimal 24). simpl. lia.
  - apply (parsedLimit_decimal 1000). simpl. lia.
Defined.

(** Past 2^53 the limit read is the nearest double, not the numeral. *)
Example parsedLimit_rounds :
  parsedLimit (Some "9007199254740993") = Some 9007199254740992 /\
  parsedLimit (Some "9007199254740995") = Some 9007199254740996.
Proof. split; reflexivity. Qed.

(** ** Start-up, proved *)

(** X11. The server starts listening only once [mongoose.connect] has
    succeeded: then the connection is [connected], the health check says
    so, nothing was stored, and the port is the [PORT] variable, or 5000
    when the variable is unset or empty.  When the connection fails, or
    there is no connection string, the process exits with code 1 and never
    listens. *)
Theorem start_outcome (env : Env) (w : World) :
  match start env w with
  | Listening port w1 =>
      (exists uri, env_MONGODB_URI env = Some uri) /\
      mongoose_connect (env_MONGODB_URI env) w = (Returned tt, w1) /\
      readyState w1 = connected /\
      prop "database" (body (fst (health w1))) = Some (JStr "Connected") /\
      docs w1 = docs w /\
      port = match env_PORT env with
             | None | Some "" => inr 5000
             | Some s => inl s
             end
  | Exited code =>
      code = 1 /\
      exists message w1,
        mongoose_connect (env_MONGODB_URI env) w = (Threw message, w1)
  end.
Proof.
  unfold start, connectDB.
  destruct (mongoose_connect (env_MONGODB_URI env) w) as [[[]|m] w1] eqn:C.
  - unfold mongoose_connect in C.
    destruct (env_MONGODB_URI env) as [uri|]; [|discriminate].
    split; [eauto|]. split; [reflexivity|].
    step roundTrip w; [|discriminate].
    apply roundTrip_docs in E. destruct E as [Ed _].
    unfold setReadyState in C. inversion C; subst; simpl.
    repeat split; auto.
    unfold PORT. destruct (env_PORT env) as [[|c s]|]; reflexivity.
  - split; [reflexivity|]. eauto.
Qed.

(** Without a connection string the process exits at once. *)
Example start_without_uri :
  start (mkEnv None (Some "8080")) coldWorld = Exited 1.
Proof. reflexivity. Qed.

Example start_local :
  start localEnv coldWorld =
  Listening (inr 5000)
    (mkWorld (upstream coldWorld) (clock coldWorld) (ticks coldWorld)
             connected [] 0 []
             (nanLimit coldWorld)).
Proof. reflexivity. Qed.

(** ** The answers of the four routes *)

(** The two bodies PostHistory sends. *)
Lemma postHistory_answer (w : World) :
  (exists n,
     fst (postHistory w) =
       mkResponse 201
         (JObj [ ("success", JBool true);
                 ("message", JStr "Snapshot stored successfully");
                 ("recordsCount", JInt n);
                 ("timestamp", JDate (clock w)) ])) \/
  (exists message,
     fst (postHistory w) =
       mkResponse 500
         (JObj [ ("success", JBool false);
                 ("error", JStr "Failed to store history snapshot");
                 ("details", JStr message) ])).
Proof.
  destruct (postHistory w) as [r w1] eqn:P. simpl fst.
  unfold postHistory, tryCatch in P.
  unfold bind at 1 in P. unfold axios_get at 1 in P.
  destruct (upstream w) as [m|coins].
  - right. exists m. now inversion P.
  - unfold bind at 1 in P. unfold newDate in P. unfold bind in P.
    destruct (saveEach (clock w) coins [] (tick w)) as [[saved|m] w2].
    + left. exists (List.length saved). now inversion P.
    + right. exists m. now inversion P.
Qed.

(** Where the loop threw: the writes for the coins before went through,
    and the write for the next coin threw that message. *)
Lemma saveEach_threw_at (timestamp : Z) (coins : list Coin) :
  forall (acc : list History.Doc) (w w1 : World) (m : string),
    saveEach timestamp coins acc w = (Threw m, w1) ->
    exists pre coin post saved w0,
      coins = pre ++ coin :: post /\
      saveEach timestamp pre acc w = (Returned saved, w0) /\
      History_create (historyInput coin timestamp) w0 = (Threw m, w1).
Proof.
  induction coins as [|coin rest IH]; intros acc w w1 m H; simpl in H.
  - discriminate.
  - destruct (History_create (historyInput coin timestamp) w)
      as [[d|m'] w0] eqn:E.
    + rewrite (bind_returned _ _ _ _ _ E) in H.
      apply IH in H. destruct H as [pre [c [post [saved [w2 [-> [S C]]]]]]].
      exists (coin :: pre), c, post, saved, w2.
      split; [reflexivity|]. split; [|exact C].
      simpl. now rewrite (bind_returned _ _ _ _ _ E).
    + rewrite (bind_threw _ _ _ _ _ E) in H. inversion H; subst.
      exists [], coin, rest, acc, w. auto.
Qed.

(** The message PostHistory sends with a 500: that of the provider, or
    that of the write that failed. *)
Lemma postHistory_500 (w : World) :
  status (fst (postHistory w)) = 500 ->
  exists m,
    (upstream w = inl m \/
     exists coins pre coin post saved w0 w1,
       upstream w = inr coins /\
       coins = pre ++ coin :: post /\
       saveEach (clock w) pre [] (tick w) = (Returned saved, w0) /\
       History_create (historyInput coin (clock w)) w0 = (Threw m, w1)) /\
    body (fst (postHistory w)) =
      JObj [ ("success", JBool false);
             ("error", JStr "Failed to store history snapshot");
             ("details", JStr m) ].
Proof.
  destruct (postHistory w) as [r w1] eqn:P. simpl fst. intros Hs.
  unfold postHistory, tryCatch in P.
  unfold bind at 1 in P. unfold axios_get at 1 in P.
  destruct (upstream w) as [m|coins].
  - exists m. inversion P; subst. auto.
  - unfold bind at 1 in P. unfold newDate in P. unfold bind in P.
    destruct (saveEach (clock w) coins [] (tick w)) as [[saved|m] w2] eqn:S.
    + inversion P; subst. discriminate.
    + inversion P; subst. exists m. split; [|reflexivity].
      right. apply saveEach_threw_at in S.
      destruct S as [pre [c [post [saved [w0 [E [S C]]]]]]].
      exists coins, pre, c, post, saved, w0, w1. auto.
Qed.

(** X12. Every answer is 200, 201, 404 or 500.  Only POST /api/history
    answers 201 and only GET /api/history/:coinId answers 404; the health
    check always answers 200; and every 500 answer is the error envelope of
    its route: the route's [error] text, and as [details] the very message
    that was thrown, by the provider call, by the write that failed, or by
    the query. *)
Theorem handle_answers (req : Request) (w : World) :
  (status (fst (handle req w)) = 200 \/
   status (fst (handle req w)) = 201 \/
   status (fst (handle req w)) = 404 \/
   status (fst (handle req w)) = 500) /\
  (status (fst (handle req w)) = 201 -> req = POST_history) /\
  (status (fst (handle req w)) = 404 ->
   exists coinId limit, req = GET_history coinId limit) /\
  (req = GET_health -> status (fst (handle req w)) = 200) /\
  (status (fst (handle req w)) = 500 ->
   match req with
   | GET_coins =>
       exists m,
         upstream w = inl m /\
         body (fst (handle req w)) =
           JObj [ ("error", JStr "Failed to fetch coins data from CoinGecko");
                  ("details", JStr m) ]
   | POST_history =>
       exists m,
         (upstream w = inl m \/
          exists coins pre coin post saved w0 w1,
            upstream w = inr coins /\
            coins = pre ++ coin :: post /\
            saveEach (clock w) pre [] (tick w) = (Returned saved, w0) /\
            History_create (historyInput coin (clock w)) w0 = (Threw m, w1)) /\
         body (fst (handle req w)) =
           JObj [ ("success", JBool false);
                  ("error", JStr "Failed to store history snapshot");
                  ("details", JStr m) ]
   | GET_history coinId limit =>
       exists m w1,
         History_find_sort_limit_select coinId (parsedLimit limit) w =
           (Threw m, w1) /\
         body (fst (handle req w)) =
           JObj [ ("error", JStr "Failed to fetch historical data");
                  ("details", JStr m) ]
   | GET_health => False
   end).
Proof.
  destruct req as [| |coinId limit|]; simpl.
  - unfold getCoins, tryCatch, bind, axios_get, ret.
    destruct (upstream w) as [m|coins]; simpl;
      (split; [auto|]); repeat split; try discriminate; eauto.
  - split; [|split; [|split; [|split]]].
    + destruct (postHistory_answer w) as [[n E]|[m E]]; rewrite E; simpl; auto.
    + reflexivity.
    + destruct (postHistory_answer w) as [[n E]|[m E]]; rewrite E; simpl;
        discriminate.
    + discriminate.
    + apply postHistory_500.
  - destruct (History_find_sort_limit_select coinId (parsedLimit limit) w)
      as [[history|m] w1] eqn:Q.
    + destruct history as [|s history].
      * rewrite (getHistory_empty _ _ _ _ Q). simpl.
        (split; [auto|]); repeat split; try discriminate; eauto.
      * assert (Hne : s :: history <> []) by discriminate.
        rewrite (getHistory_found _ _ _ _ _ Q Hne). simpl.
        (split; [auto|]); repeat split; try discriminate; eauto.
    + rewrite (getHistory_threw _ _ _ _ _ Q). simpl.
      (split; [auto|]); repeat split; try discriminate; eauto.
  - (split; [auto|]); repeat split; try discriminate; eauto.
Qed.

Lemma handle_answers_witness :
  status (fst (handle GET_health outageWorld)) = 200 /\
  (exists m,
     upstream providerDownWorld = inl m /\
     body (fst (handle GET_coins providerDownWorld)) =
       JObj [ ("error", JStr "Failed to fetch coins data from CoinGecko");
              ("details", JStr m) ]) /\
  (exists m w1,
     History_find_sort_limit_select "bitcoin" (parsedLimit None) outageWorld =
       (Threw m, w1) /\
     body (fst (handle (GET_history "bitcoin" None) outageWorld)) =
       JObj [ ("error", JStr "Failed to fetch historical data");
              ("details", JStr m) ]).
Proof.
  split; [|split].
  - apply (handle_answers GET_health outageWorld). reflexivity.
  - apply (handle_answers GET_coins providerDownWorld). reflexivity.
  - apply (handle_answers (GET_history "bitcoin" None) outageWorld). reflexivity.
Defined.
